(** * CarbonShift (optibot): trip submission, redemption and account resolution

    A shallow embedding of
      - [client/src/pages/home.tsx] (the revision that mints on the ledger):
        [calculateTokens], [fetchBalance], [mintTokens], [submitTrip],
        [redeemReward] and the [createTrip] mutation; what the revision
        without a mint does differently is in [FirstRevision];
      - [server/storage.ts]: [MemStorage] and [DatabaseStorage] behind the
        [IStorage] interface;
      - [server/routes.ts]: the three routes of [registerRoutes];
      - [shared/schema.ts]: the [users] and [trips] tables and
        [insertTripSchema].

    Conventions of the embedding.
      - A JavaScript [number] is an exact rational or [NaN]; the rounding of
        IEEE doubles and the infinities are left out (the distance field is
        an HTML number input, whose text is empty or a finite decimal).
      - A call either returns or throws: [completion].
      - React state is a record; an event handler runs to completion on the
        values of the last committed render, and an [async] function is cut
        at its [await]s into the steps the event loop runs one at a time.
      - What the ledger, the wallet, [Math.random], [randomUUID] and the
        clock answer is an input of the step that asks. *)

From Stdlib Require Import ZArith QArith Qround String Ascii List Bool Lia.
From Stdlib Require Import Permutation Sorted.
Import ListNotations.

Set Implicit Arguments.

(* ================================================================== *)
(** * JavaScript values *)
(* ================================================================== *)

Module Js.

(** A [number]: an exact rational, or [NaN]. *)
Inductive number : Type :=
| Num (q : Q)
| NaN.

(** What a property read [obj[key]] can give in this program: nothing, a
    number, or some function or object inherited from [Object.prototype]. *)
Inductive value : Type :=
| Undefined
| Number (n : number)
| Object.

(** [ToNumber]: [undefined], functions and plain objects all become [NaN]. *)
Definition ToNumber (v : value) : number :=
  match v with
  | Number n => n
  | Undefined | Object => NaN
  end.

(** [x * y]. *)
Definition mul (x y : number) : number :=
  match x, y with
  | Num a, Num b => Num (a * b)
  | _, _ => NaN
  end.

(** [Math.floor]. *)
Definition Math_floor (x : number) : number :=
  match x with
  | Num q => Num (inject_Z (Qfloor q))
  | NaN => NaN
  end.

(** [x > y] and [x <= y]: every comparison with [NaN] is [false]. *)
Definition gt (x y : number) : bool :=
  match x, y with
  | Num a, Num b => negb (Qle_bool a b)
  | _, _ => false
  end.

Definition le (x y : number) : bool :=
  match x, y with
  | Num a, Num b => Qle_bool a b
  | _, _ => false
  end.

(** [Number.isInteger]. *)
Definition isInteger (x : number) : bool :=
  match x with
  | Num q => Qeq_bool (inject_Z (Qfloor q)) q
  | NaN => false
  end.

(** An [Error] object, as far as the program looks at it. *)
Record Error : Type := mkError { message : string }.

(** The outcome of a call. *)
Inductive completion (A : Type) : Type :=
| Normal (a : A)
| Throw (e : Error).
Arguments Normal {A} a.
Arguments Throw {A} e.

Definition bind {A B} (c : completion A) (k : A -> completion B)
  : completion B :=
  match c with
  | Normal a => k a
  | Throw e => Throw e
  end.

(** The names every object literal inherits from [Object.prototype]. *)
Definition Object_prototype_keys : list string :=
  [ "constructor"; "toString"; "toLocaleString"; "valueOf";
    "hasOwnProperty"; "isPrototypeOf"; "propertyIsEnumerable";
    "__proto__"; "__defineGetter__"; "__defineSetter__";
    "__lookupGetter__"; "__lookupSetter__" ]%string.

(** [obj[key]] on an object literal whose own properties are [own]. *)
Fixpoint own_property (own : list (string * number)) (key : string)
  : option number :=
  match own with
  | [] => None
  | (k, v) :: rest =>
      if String.eqb k key then Some v else own_property rest key
  end.

Definition get (own : list (string * number)) (key : string) : value :=
  match own_property own key with
  | Some v => Number v
  | None =>
      if existsb (String.eqb key) Object_prototype_keys
      then Object else Undefined
  end.

(** [haystack.includes(needle)]. *)
Fixpoint includes (haystack needle : string) : bool :=
  String.prefix needle haystack
  || match haystack with
     | EmptyString => false
     | String _ rest => includes rest needle
     end.

End Js.

Import Js.

Notation "x <- c ;; k" := (Js.bind c (fun x => k))
  (at level 61, c at next level, right associativity).

(* ================================================================== *)
(** * The reward policy: [calculateTokens] *)
(* ================================================================== *)

Open Scope Q_scope.

(** The object literal [rates] of [calculateTokens]. *)
Definition rates : list (string * number) :=
  [ ("Walking"%string, Num 1);
    ("Cycling"%string, Num 0.5);
    ("Public Transport"%string, Num 0.2) ].

(** [calculateTokens(mode, distance)]:
    [return Math.floor(rates[mode] * distance)]. *)
Definition calculateTokens (mode : string) (distance : number)
  : completion number :=
  Normal (Math_floor (mul (ToNumber (get rates mode)) distance)).

(** The reward policy in the words of the specification: three modes, the
    rate table [{Walking: 1.0, Cycling: 0.5, PublicTransport: 0.2}] and
    [tokens(mode, distance) = floor(rate(mode) * distance)]. *)
Inductive Mode : Type := Walking | Cycling | PublicTransport.



(** The text the trip form sends for each mode (the [SelectItem] values). *)
Definition mode_key (m : Mode) : string :=
  match m with
  | Walking => "Walking"
  | Cycling => "Cycling"
  | PublicTransport => "Public Transport"
  end.

(** A mode text is known when it is a key of [rates]. *)
Definition known_mode (mode : string) : bool :=
  match own_property rates mode with
  | Some _ => true
  | None => false
  end.

(* ================================================================== *)
(** * The client: state of the [Home] component *)
(* ================================================================== *)

Open Scope string_scope.
Open Scope Z_scope.
Open Scope list_scope.

(** An entry of the reward catalog. *)
Module Reward.
Record t : Type := mk {
  id : Z;
  title : string;
  description : string;
  cost : Z;
  partner : string
}.
End Reward.


(** The trip form. The text of the distance field is kept as what
    [parseFloat] makes of it: [None] is the empty text. *)
Module TripForm.
Record t : Type := mk {
  mode : string;
  distance : option number
}.
End TripForm.

(** The [ethers.BrowserProvider] kept in the state; the program only
    tests that it is there and hands it on. *)
Inductive Provider : Type := BrowserProvider.

(** The [useState] cells of [Home]. *)
Record State : Type := mkState {
  account : option string;
  balance : Z;
  loading : bool;
  redeeming : bool;
  minting : bool;
  provider : option Provider;
  showTripModal : bool;
  tripForm : TripForm.t
}.

Definition initial_tripForm : TripForm.t := TripForm.mk "Walking" None.

Definition initial_State : State :=
  mkState None 0 false false false None false initial_tripForm.

Definition setAccount (v : option string) (st : State) : State :=
  mkState v (balance st) (loading st) (redeeming st) (minting st)
          (provider st) (showTripModal st) (tripForm st).

Definition setBalance (v : Z) (st : State) : State :=
  mkState (account st) v (loading st) (redeeming st) (minting st)
          (provider st) (showTripModal st) (tripForm st).

Definition setRedeeming (v : bool) (st : State) : State :=
  mkState (account st) (balance st) (loading st) v (minting st)
          (provider st) (showTripModal st) (tripForm st).

Definition setMinting (v : bool) (st : State) : State :=
  mkState (account st) (balance st) (loading st) (redeeming st) v
          (provider st) (showTripModal st) (tripForm st).

Definition setProvider (v : option Provider) (st : State) : State :=
  mkState (account st) (balance st) (loading st) (redeeming st) (minting st)
          v (showTripModal st) (tripForm st).

Definition setShowTripModal (v : bool) (st : State) : State :=
  mkState (account st) (balance st) (loading st) (redeeming st) (minting st)
          (provider st) v (tripForm st).

Definition setTripForm (v : TripForm.t) (st : State) : State :=
  mkState (account st) (balance st) (loading st) (redeeming st) (minting st)
          (provider st) (showTripModal st) v.

(** The argument of [createTrip.mutate], which is the body of the
    [POST /api/trips] request. *)
Module TripData.
Record t : Type := mk {
  walletAddress : string;
  mode : string;
  distance : number;
  tokensEarned : number
}.
End TripData.

(** The toasts of the component, by their title. *)
Inductive Toast : Type :=
| Toast_InvalidDistance
| Toast_WalletNotConnected
| Toast_TokensMinted (tokensEarned : number) (txHash10 : string)
| Toast_TripSubmissionFailed (description : string)
| Toast_BalanceUpdateFailed
| Toast_Success (couponCode : string)
| Toast_InsufficientBalance
| Toast_TripLogged
| Toast_Error.

Definition Toast_title (t : Toast) : string :=
  match t with
  | Toast_InvalidDistance => "Invalid distance"
  | Toast_WalletNotConnected => "Wallet not connected"
  | Toast_TokensMinted _ _ => "Tokens minted successfully!"
  | Toast_TripSubmissionFailed _ => "Trip submission failed"
  | Toast_BalanceUpdateFailed => "Balance update failed"
  | Toast_Success _ => "Success!"
  | Toast_InsufficientBalance => "Insufficient balance"
  | Toast_TripLogged => "Trip logged!"
  | Toast_Error => "Error"
  end.

(** What a step of the component asks of the outside. Of the messages
    written to the console only the two of the re-entrancy guards are kept,
    being all those paths do. *)
Inductive Effect : Type :=
| Console_log (text : string)
| Display (t : Toast)
| Ledger_mint (to : string) (amount : number)
| Ledger_balanceOf (owner : string)
| Post_api_trips (trip : TripData.t)
| Uncaught (e : Error).

(** ** The ledger, as the component sees it *)

(** How [contract.mint(...)] followed by [tx.wait()] ends: confirmed, with
    the [transactionHash] field of the receipt ([None] when the receipt has
    no field of that name), or failed with a message. *)
Inductive MintOutcome : Type :=
| Mint_confirmed (transactionHash : option string)
| Mint_failed (cause : string).

(** How [contract.balanceOf(address)] ends: the balance in wei (a
    [uint256]), or a failure. *)
Inductive BalanceOutcome : Type :=
| Balance_read (wei : N)
| Balance_failed.

(** The object [mintTokens] returns. *)
Record MintResult : Type := mkMintResult {
  success : bool;
  txHash : option string
}.

(** [mintTokens(provider, address, amount)]: every failure inside its
    [try] is thrown again as ["Token minting failed: ..."]. *)
Definition mintTokens (outcome : MintOutcome) : completion MintResult :=
  match outcome with
  | Mint_confirmed h => Normal (mkMintResult true h)
  | Mint_failed cause => Throw (mkError ("Token minting failed: " ++ cause)%string)
  end.

(** [parseInt(formatUnits(balance, 18))]: whole tokens of a wei amount. *)
Definition whole_tokens (wei : N) : Z := Z.of_N wei / 10 ^ 18.

(** [fetchBalance(provider, address)], from the answer of [balanceOf] on:
    the balance is replaced by the value read, or kept with a toast. *)
Definition fetchBalance (outcome : BalanceOutcome) (st : State)
  : State * list Effect :=
  match outcome with
  | Balance_read wei => (setBalance (whole_tokens wei) st, [])
  | Balance_failed => (st, [Display Toast_BalanceUpdateFailed])
  end.

(** ** [submitTrip] *)

(** A call of [submitTrip] suspended at an [await], with the values its
    closure holds. *)
Inductive Pending : Type :=
| AwaitMint (trip : TripData.t)
| AwaitBalance (trip : TripData.t) (mintResult : MintResult).

(** [!x] for [x] a text that may be missing: [null], [undefined] and the
    empty text are falsy; [truthy] gives the text when it is not. *)
Definition truthy (a : option string) : option string :=
  match a with
  | Some s => if String.eqb s "" then None else Some s
  | None => None
  end.

(** The [catch] of [submitTrip]: the toast it shows for an error. *)
Definition submission_failed (e : Error) : Toast :=
  Toast_TripSubmissionFailed
    (if includes (message e) "Token minting failed"
     then ("Blockchain minting failed: " ++ message e)%string
     else "There was an error logging your trip. Please try again.").

(** [catch] then [finally] of [submitTrip]. *)
Definition submitTrip_catch (e : Error) (st : State) : State * list Effect :=
  (setMinting false st, [Display (submission_failed e)]).

(** [submitTrip], from the click to its first [await]. [render] holds the
    values the handler closed over, [st] the state its setters act on. The
    third component is the suspended call, if it got as far as the mint. *)
Definition submitTrip (render st : State)
  : State * list Effect * option Pending :=
  if minting render then
    (st, [Console_log "Already minting, ignoring duplicate submission"], None)
  else
    match TripForm.distance (tripForm render) with
    | None => (st, [Display Toast_InvalidDistance], None)
    | Some distance =>
        if le distance (Num 0) then
          (st, [Display Toast_InvalidDistance], None)
        else
          match calculateTokens (TripForm.mode (tripForm render)) distance with
          | Throw e => (st, [Uncaught e], None)
          | Normal tokensEarned =>
              match truthy (account render) with
              | None => (st, [Display Toast_WalletNotConnected], None)
              | Some acc =>
                  let st1 := setMinting true st in
                  match provider render with
                  | Some _ =>
                      if gt tokensEarned (Num 0) then
                        (st1, [Ledger_mint acc tokensEarned],
                         Some (AwaitMint
                                 (TripData.mk acc
                                    (TripForm.mode (tripForm render))
                                    distance tokensEarned)))
                      else
                        let '(st2, out) :=
                          submitTrip_catch
                            (mkError "No provider available or no tokens to mint")
                            st1 in
                        (st2, out, None)
                  | None =>
                      let '(st2, out) :=
                        submitTrip_catch
                          (mkError "No provider available or no tokens to mint")
                          st1 in
                      (st2, out, None)
                  end
              end
          end
    end.

(** [submitTrip], resumed when [mintTokens] settles: on success it goes on
    to [fetchBalance] and suspends again; on failure [catch] and [finally]
    run. *)
Definition submitTrip_minted (trip : TripData.t) (outcome : MintOutcome)
    (st : State) : State * list Effect * option Pending :=
  match mintTokens outcome with
  | Normal mintResult =>
      (st, [Ledger_balanceOf (TripData.walletAddress trip)],
       Some (AwaitBalance trip mintResult))
  | Throw e =>
      let '(st1, out) := submitTrip_catch e st in (st1, out, None)
  end.

(** [txHash.slice(0, 10)]. *)
Definition slice_0_10 (s : string) : string := String.substring 0 10 s.

(** [submitTrip], resumed when [fetchBalance] settles: the trip is handed
    to [createTrip.mutate], the success toast is built (reading
    [mintResult.txHash.slice], which throws on [undefined]), the modal is
    closed and the form reset; [finally] clears [minting]. *)
Definition submitTrip_balanced (trip : TripData.t) (mintResult : MintResult)
    (outcome : BalanceOutcome) (st : State) : State * list Effect :=
  let '(st1, out1) := fetchBalance outcome st in
  let out2 := out1 ++ [Post_api_trips trip] in
  match txHash mintResult with
  | Some h =>
      (setMinting false
         (setTripForm initial_tripForm (setShowTripModal false st1)),
       out2 ++ [Display (Toast_TokensMinted (TripData.tokensEarned trip)
                                            (slice_0_10 h))])
  | None =>
      let '(st2, out3) :=
        submitTrip_catch
          (mkError "Cannot read properties of undefined (reading 'slice')")
          st1 in
      (st2, out2 ++ out3)
  end.

(** The callbacks of the [createTrip] mutation. [onSuccess] refreshes the
    trip list and shows a toast; it does not touch the balance. *)
Definition createTrip_onSuccess (st : State) : State * list Effect :=
  (st, [Display Toast_TripLogged]).

Definition createTrip_onError (st : State) : State * list Effect :=
  (st, [Display Toast_Error]).

(** ** [redeemReward] *)

(** [redeemReward(reward)]. [render] holds the [balance] and [redeeming]
    the handler closed over; the updater given to [setBalance] inside
    [flushSync] runs on [prev], the balance of the state itself. [code] is
    what [Math.random().toString(36).substr(2, 6).toUpperCase()] gave. *)
Definition redeemReward (render : State) (reward : Reward.t) (code : string)
    (st : State) : State * list Effect :=
  if redeeming render then
    (st, [Console_log "Redemption already in progress, skipping"])
  else
    let oldBalance := balance render in
    let st1 := setRedeeming true st in
    let prev := balance st1 in
    let newBalance :=
      if Reward.cost reward <=? prev then prev - Reward.cost reward
      else prev in
    let st2 := setBalance newBalance st1 in
    let out :=
      if newBalance <? oldBalance
      then [Display (Toast_Success ("BENGALURU-GREEN-" ++ code)%string)]
      else [Display Toast_InsufficientBalance] in
    (setRedeeming false st2, out).

(** ** The component under the event loop *)

(** The committed state and the calls of [submitTrip] that are suspended. *)
Record World : Type := mkWorld {
  ui : State;
  pending : list Pending
}.

Definition initial_World : World := mkWorld initial_State [].

(** What can happen next. A settled promise names the suspended call it
    resumes by its place in [pending]. *)
Inductive Event : Type :=
| Wallet_connected (address : string)
| Balance_fetched (outcome : BalanceOutcome)
| Form_changed (form : TripForm.t)
| Modal_changed (open : bool)
| Click_submit
| Mint_settled (i : nat) (outcome : MintOutcome)
| Balance_settled (i : nat) (outcome : BalanceOutcome)
| Click_redeem (reward : Reward.t) (code : string)
| Trip_saved
| Trip_not_saved.

(** [pending] without its [i]-th call. *)
Fixpoint remove_nth {A} (i : nat) (l : list A) : list A :=
  match l, i with
  | [], _ => []
  | _ :: rest, O => rest
  | x :: rest, S j => x :: remove_nth j rest
  end.

Definition enqueue (p : option Pending) (l : list Pending) : list Pending :=
  match p with
  | Some c => l ++ [c]
  | None => l
  end.

(** One turn of the event loop. An event that finds nothing to resume
    changes nothing. *)
Definition step (w : World) (e : Event) : World * list Effect :=
  let st := ui w in
  match e with
  | Wallet_connected address =>
      (mkWorld (setProvider (Some BrowserProvider)
                  (setAccount (Some address) st)) (pending w),
       [Ledger_balanceOf address])
  | Balance_fetched outcome =>
      let '(st1, out) := fetchBalance outcome st in
      (mkWorld st1 (pending w), out)
  | Form_changed form => (mkWorld (setTripForm form st) (pending w), [])
  | Modal_changed open => (mkWorld (setShowTripModal open st) (pending w), [])
  | Click_submit =>
      let '(st1, out, p) := submitTrip st st in
      (mkWorld st1 (enqueue p (pending w)), out)
  | Mint_settled i outcome =>
      match nth_error (pending w) i with
      | Some (AwaitMint trip) =>
          let '(st1, out, p) := submitTrip_minted trip outcome st in
          (mkWorld st1 (enqueue p (remove_nth i (pending w))), out)
      | _ => (w, [])
      end
  | Balance_settled i outcome =>
      match nth_error (pending w) i with
      | Some (AwaitBalance trip mintResult) =>
          let '(st1, out) := submitTrip_balanced trip mintResult outcome st in
          (mkWorld st1 (remove_nth i (pending w)), out)
      | _ => (w, [])
      end
  | Click_redeem reward code =>
      let '(st1, out) := redeemReward st reward code st in
      (mkWorld st1 (pending w), out)
  | Trip_saved =>
      let '(st1, out) := createTrip_onSuccess st in
      (mkWorld st1 (pending w), out)
  | Trip_not_saved =>
      let '(st1, out) := createTrip_onError st in
      (mkWorld st1 (pending w), out)
  end.

(** The worlds the component can be in. *)
Inductive reachable : World -> Prop :=
| reachable_initial : reachable initial_World
| reachable_step w e : reachable w -> reachable (fst (step w e)).

(** A whole submission with nothing else in between: the click, then the
    answer of the mint, then the answer of the balance read. *)
Definition submission (st : State) (mint : MintOutcome)
    (read : BalanceOutcome) : State * list Effect :=
  let '(st1, out1, p1) := submitTrip st st in
  match p1 with
  | Some (AwaitMint trip) =>
      let '(st2, out2, p2) := submitTrip_minted trip mint st1 in
      match p2 with
      | Some (AwaitBalance trip' mintResult) =>
          let '(st3, out3) := submitTrip_balanced trip' mintResult read st2 in
          (st3, out1 ++ out2 ++ out3)
      | _ => (st2, out1 ++ out2)
      end
  | _ => (st1, out1)
  end.

(** The trips a list of effects hands to [createTrip.mutate], and the
    mints it asks for. *)
Definition posted (out : list Effect) : list TripData.t :=
  flat_map (fun e => match e with Post_api_trips t => [t] | _ => [] end) out.

Definition mints (out : list Effect) : list (string * number) :=
  flat_map (fun e => match e with Ledger_mint a n => [(a, n)] | _ => [] end)
           out.

Definition toasts (out : list Effect) : list Toast :=
  flat_map (fun e => match e with Display t => [t] | _ => [] end) out.

(* ================================================================== *)
(** * The server: schema, storage and routes *)
(* ================================================================== *)

(** [String.prototype.toLowerCase] on the letters A to Z; a wallet address
    is ["0x"] and hexadecimal digits. *)
Definition lower_ascii (c : ascii) : ascii :=
  let n := nat_of_ascii c in
  if ((65 <=? n) && (n <=? 90))%nat then ascii_of_nat (n + 32) else c.

Fixpoint toLowerCase (s : string) : string :=
  match s with
  | EmptyString => EmptyString
  | String c rest => String (lower_ascii c) (toLowerCase rest)
  end.

(** Rows of the tables [users] and [trips] of the schema. A timestamp is
    the number of milliseconds [getTime()] gives; the integer column
    [tokens_earned] holds an integer. *)
Module User.
Record t : Type := mk {
  id : string;
  walletAddress : string;
  createdAt : Z
}.
End User.

Module Trip.
Record t : Type := mk {
  id : string;
  userId : string;
  mode : string;
  distance : Q;
  tokensEarned : Z;
  createdAt : Z
}.
End Trip.

(** [InsertUser] and [InsertTrip]: what [insertUserSchema] and
    [insertTripSchema] pick. *)
Module InsertUser.
Record t : Type := mk { walletAddress : string }.
End InsertUser.

Module InsertTrip.
Record t : Type := mk {
  userId : string;
  mode : string;
  distance : Q;
  tokensEarned : Z
}.
End InsertTrip.

(** What [randomUUID()] (or [gen_random_uuid()]) and [new Date()] (or
    [now()]) give to one insertion. *)
Record Fresh : Type := mkFresh { uuid : string; now : Z }.

(** The interface [IStorage]. A method that writes takes the store and
    gives the new one; a thrown error leaves the store as it was. *)
Class IStorage (S : Type) : Type := {
  getUser : S -> string -> option User.t;
  getUserByWalletAddress : S -> string -> option User.t;
  createUser : S -> InsertUser.t -> Fresh -> completion (User.t * S);
  createTrip : S -> InsertTrip.t -> Fresh -> completion (Trip.t * S);
  getTripsByUserId : S -> string -> list Trip.t
}.

(** The rows a store holds, to say what is stored. *)
Class Rows (S : Type) : Type := {
  all_users : S -> list User.t;
  all_trips : S -> list Trip.t
}.

(** [Array.prototype.sort] with the comparator
    [(a, b) => b.createdAt - a.createdAt]: stable, most recent first. *)
Fixpoint insert_by_createdAt (x : Trip.t) (sorted : list Trip.t)
  : list Trip.t :=
  match sorted with
  | [] => [x]
  | y :: rest =>
      if Trip.createdAt y <=? Trip.createdAt x then x :: sorted
      else y :: insert_by_createdAt x rest
  end.

Definition sort_most_recent_first (l : list Trip.t) : list Trip.t :=
  fold_right insert_by_createdAt [] l.

(** ** [MemStorage] *)

(** A JavaScript [Map] with text keys: the entries in insertion order;
    [set] on a key that is there replaces the value in place. *)
Module JsMap.
Definition t (V : Type) : Type := list (string * V).

Fixpoint get {V} (m : t V) (key : string) : option V :=
  match m with
  | [] => None
  | (k, v) :: rest => if String.eqb k key then Some v else get rest key
  end.

Fixpoint set {V} (m : t V) (key : string) (value : V) : t V :=
  match m with
  | [] => [(key, value)]
  | (k, v) :: rest =>
      if String.eqb k key then (k, value) :: rest
      else (k, v) :: set rest key value
  end.

Definition values {V} (m : t V) : list V := map snd m.
End JsMap.

Module MemStorage.
Record t : Type := mk {
  users : JsMap.t User.t;
  trips : JsMap.t Trip.t
}.

(** [new MemStorage()]. *)
Definition new : t := mk [] [].

Definition getUser (s : t) (id : string) : option User.t :=
  JsMap.get (users s) id.

Definition getUserByWalletAddress (s : t) (walletAddress : string)
  : option User.t :=
  find (fun user =>
          String.eqb (toLowerCase (User.walletAddress user))
                     (toLowerCase walletAddress))
       (JsMap.values (users s)).

Definition createUser (s : t) (insertUser : InsertUser.t) (f : Fresh)
  : completion (User.t * t) :=
  let id := uuid f in
  let user := User.mk id (InsertUser.walletAddress insertUser) (now f) in
  Normal (user, mk (JsMap.set (users s) id user) (trips s)).

Definition createTrip (s : t) (insertTrip : InsertTrip.t) (f : Fresh)
  : completion (Trip.t * t) :=
  let id := uuid f in
  let trip :=
    Trip.mk id (InsertTrip.userId insertTrip) (InsertTrip.mode insertTrip)
            (InsertTrip.distance insertTrip)
            (InsertTrip.tokensEarned insertTrip) (now f) in
  Normal (trip, mk (users s) (JsMap.set (trips s) id trip)).

Definition getTripsByUserId (s : t) (userId : string) : list Trip.t :=
  sort_most_recent_first
    (filter (fun trip => String.eqb (Trip.userId trip) userId)
            (JsMap.values (trips s))).
End MemStorage.

#[export] Instance MemStorage_IStorage : IStorage MemStorage.t := {
  getUser := MemStorage.getUser;
  getUserByWalletAddress := MemStorage.getUserByWalletAddress;
  createUser := MemStorage.createUser;
  createTrip := MemStorage.createTrip;
  getTripsByUserId := MemStorage.getTripsByUserId
}.

#[export] Instance MemStorage_Rows : Rows MemStorage.t := {
  all_users := fun s => JsMap.values (MemStorage.users s);
  all_trips := fun s => JsMap.values (MemStorage.trips s)
}.

(** ** [DatabaseStorage] *)

(** The two tables, with the constraints the schema declares: [id] is the
    primary key of each, [wallet_address] is unique, [user_id] refers to
    [users.id]. A statement that breaks a constraint throws and writes
    nothing. *)
Module DatabaseStorage.
Record t : Type := mk {
  users : list User.t;
  trips : list Trip.t
}.

Definition empty : t := mk [] [].

(** [db.select().from(users).where(eq(users.id, id))]. *)
Definition select_users_by_id (s : t) (id : string) : list User.t :=
  filter (fun u => String.eqb (User.id u) id) (users s).

(** [db.select().from(users).where(eq(users.walletAddress, w))]. *)
Definition select_users_by_walletAddress (s : t) (w : string)
  : list User.t :=
  filter (fun u => String.eqb (User.walletAddress u) w) (users s).

(** [const [user] = rows; return user || undefined]. *)
Definition first {A} (rows : list A) : option A := hd_error rows.

Definition getUser (s : t) (id : string) : option User.t :=
  first (select_users_by_id s id).

Definition getUserByWalletAddress (s : t) (walletAddress : string)
  : option User.t :=
  first (select_users_by_walletAddress s (toLowerCase walletAddress)).

(** [db.insert(users).values(v).onConflictDoNothing({target:
    users.walletAddress}).returning()]: no row when the address is
    taken, an error when the key is. *)
Definition insert_user_onConflictDoNothing (s : t) (walletAddress : string)
    (f : Fresh) : completion (list User.t * t) :=
  match select_users_by_walletAddress s walletAddress with
  | _ :: _ => Normal ([], s)
  | [] =>
      match select_users_by_id s (uuid f) with
      | _ :: _ =>
          Throw (mkError "duplicate key value violates unique constraint")
      | [] =>
          let user := User.mk (uuid f) walletAddress (now f) in
          Normal ([user], mk (users s ++ [user]) (trips s))
      end
  end.

Definition createUser (s : t) (insertUser : InsertUser.t) (f : Fresh)
  : completion (User.t * t) :=
  let attempt :=
    rows <- insert_user_onConflictDoNothing s
              (toLowerCase (InsertUser.walletAddress insertUser)) f ;;
    match first (fst rows) with
    | Some user => Normal (user, snd rows)
    | None =>
        match getUserByWalletAddress (snd rows)
                (InsertUser.walletAddress insertUser) with
        | Some existingUser => Normal (existingUser, snd rows)
        | None => Throw (mkError "Failed to create or retrieve user")
        end
    end in
  match attempt with
  | Normal r => Normal r
  | Throw error =>
      match getUserByWalletAddress s
              (InsertUser.walletAddress insertUser) with
      | Some existingUser => Normal (existingUser, s)
      | None => Throw error
      end
  end.

(** [db.insert(trips).values(insertTrip).returning()]. *)
Definition createTrip (s : t) (insertTrip : InsertTrip.t) (f : Fresh)
  : completion (Trip.t * t) :=
  match filter (fun r => String.eqb (Trip.id r) (uuid f)) (trips s) with
  | _ :: _ =>
      Throw (mkError "duplicate key value violates unique constraint")
  | [] =>
      match select_users_by_id s (InsertTrip.userId insertTrip) with
      | [] => Throw (mkError "violates foreign key constraint")
      | _ :: _ =>
          let trip :=
            Trip.mk (uuid f) (InsertTrip.userId insertTrip)
                    (InsertTrip.mode insertTrip)
                    (InsertTrip.distance insertTrip)
                    (InsertTrip.tokensEarned insertTrip) (now f) in
          Normal (trip, mk (users s) (trips s ++ [trip]))
      end
  end.

(** [select ... where user_id = userId order by created_at desc]; rows
    of one instant are given in the order of the table. *)
Definition getTripsByUserId (s : t) (userId : string) : list Trip.t :=
  sort_most_recent_first
    (filter (fun trip => String.eqb (Trip.userId trip) userId) (trips s)).
End DatabaseStorage.

#[export] Instance DatabaseStorage_IStorage : IStorage DatabaseStorage.t := {
  getUser := DatabaseStorage.getUser;
  getUserByWalletAddress := DatabaseStorage.getUserByWalletAddress;
  createUser := DatabaseStorage.createUser;
  createTrip := DatabaseStorage.createTrip;
  getTripsByUserId := DatabaseStorage.getTripsByUserId
}.

#[export] Instance DatabaseStorage_Rows : Rows DatabaseStorage.t := {
  all_users := DatabaseStorage.users;
  all_trips := DatabaseStorage.trips
}.

(** ** The routes of [registerRoutes] *)

(** A field of a JSON request body. *)
Inductive json : Type :=
| JAbsent
| JNull
| JBool (b : bool)
| JNumber (q : Q)
| JString (s : string).

(** The body of [POST /api/trips]. The wallet address is absent or a
    text. *)
Module TripRequest.
Record t : Type := mk {
  walletAddress : option string;
  mode : json;
  distance : json;
  tokensEarned : json
}.
End TripRequest.

(** What [res.json(...)] sends. *)
Inductive Body : Type :=
| Message (message : string)
| Json_user (user : User.t)
| Json_trip (trip : Trip.t)
| Json_trips (trips : list Trip.t)
| Invalid_trip_data.

Record Response : Type := mkResponse { status : Z; body : Body }.

(** [insertTripSchema.parse]: by the types of the picked columns, [userId]
    and [mode] are texts, [distance] a number and [tokensEarned] an integer
    number. [None] stands for the [ZodError]. *)
Definition insertTripSchema_parse (userId : string)
    (mode distance tokensEarned : json) : option InsertTrip.t :=
  match mode, distance, tokensEarned with
  | JString m, JNumber d, JNumber n =>
      if isInteger (Num n)
      then Some (InsertTrip.mk userId m d (Qfloor n))
      else None
  | _, _, _ => None
  end.



Section Routes.

Context {S : Type} {storage : IStorage S}.

Definition internal_server_error : Response :=
  mkResponse 500 (Message "Internal server error").

Definition wallet_address_required : Response :=
  mkResponse 400 (Message "Wallet address is required").

(** The lines
    [let user = await storage.getUserByWalletAddress(walletAddress);
     if (!user) user = await storage.createUser({ walletAddress });]
    that two routes share. *)
Definition find_or_create (store : S) (walletAddress : string) (f : Fresh)
  : completion (User.t * S) :=
  match getUserByWalletAddress store walletAddress with
  | Some user => Normal (user, store)
  | None => createUser store (InsertUser.mk walletAddress) f
  end.

(** [POST /api/auth/wallet]. *)
Definition post_api_auth_wallet (store : S) (walletAddress : option string)
    (f : Fresh) : Response * S :=
  match truthy walletAddress with
  | None => (wallet_address_required, store)
  | Some w =>
      match find_or_create store w f with
      | Normal (user, store1) => (mkResponse 200 (Json_user user), store1)
      | Throw _ => (internal_server_error, store)
      end
  end.

(** [GET /api/trips/:walletAddress]. *)
Definition get_api_trips (store : S) (walletAddress : string) : Response :=
  match getUserByWalletAddress store walletAddress with
  | None => mkResponse 404 (Message "User not found")
  | Some user =>
      mkResponse 200 (Json_trips (getTripsByUserId store (User.id user)))
  end.

(** [POST /api/trips]. [fu] serves the creation of the user, [ft] that
    of the trip. *)
Definition post_api_trips (store : S) (req : TripRequest.t)
    (fu ft : Fresh) : Response * S :=
  match truthy (TripRequest.walletAddress req) with
  | None => (wallet_address_required, store)
  | Some w =>
      match find_or_create store w fu with
      | Throw _ => (internal_server_error, store)
      | Normal (user, store1) =>
          match insertTripSchema_parse (User.id user)
                  (TripRequest.mode req) (TripRequest.distance req)
                  (TripRequest.tokensEarned req) with
          | None => (mkResponse 400 Invalid_trip_data, store1)
          | Some tripData =>
              match createTrip store1 tripData ft with
              | Normal (trip, store2) =>
                  (mkResponse 200 (Json_trip trip), store2)
              | Throw _ => (internal_server_error, store1)
              end
          end
      end
  end.

End Routes.



(** Every stored address is in lower case. *)
Definition db_lower (s : DatabaseStorage.t) : Prop :=
  forall u, In u (DatabaseStorage.users s) ->
    User.walletAddress u = toLowerCase (User.walletAddress u).

(** The stores the routes can build in the database: from the empty one,
    by the two routes that write. *)
Inductive db_reachable : DatabaseStorage.t -> Prop :=
| db_empty : db_reachable DatabaseStorage.empty
| db_auth s w f :
    db_reachable s -> db_reachable (snd (post_api_auth_wallet s w f))
| db_trip s req fu ft :
    db_reachable s -> db_reachable (snd (post_api_trips s req fu ft)).

(** ** The revision of [home.tsx] without a mint *)

(** The same file holds an earlier revision of the component, which has no
    [mintTokens], no [minting] and no [redeeming]: [submitTrip] hands the
    trip to [createTrip.mutate] at once, [onSuccess] adds the tokens of the
    saved trip to the balance, [fetchBalance] falls back to 125, and
    [redeemReward] tests the balance of the render. The properties below
    are about the revision that mints; this one is kept for comparison. *)
Module FirstRevision.

Definition createTrip_onSuccess (data : Trip.t) (st : State)
  : State * list Effect :=
  (setBalance (balance st + Trip.tokensEarned data) st,
   [Display Toast_TripLogged]).

Definition fetchBalance (outcome : BalanceOutcome) (st : State) : State :=
  match outcome with
  | Balance_read wei => setBalance (Z.of_N wei) st
  | Balance_failed => setBalance 125 st
  end.

Definition submitTrip (render st : State) : State * list Effect :=
  match TripForm.distance (tripForm render) with
  | None => (st, [Display Toast_InvalidDistance])
  | Some distance =>
      if le distance (Num 0) then (st, [Display Toast_InvalidDistance])
      else
        match calculateTokens (TripForm.mode (tripForm render)) distance with
        | Throw e => (st, [Uncaught e])
        | Normal tokensEarned =>
            match truthy (account render) with
            | None => (st, [Display Toast_WalletNotConnected])
            | Some acc =>
                (setTripForm initial_tripForm (setShowTripModal false st),
                 [Post_api_trips
                    (TripData.mk acc (TripForm.mode (tripForm render))
                                 distance tokensEarned)])
            end
        end
  end.

Definition redeemReward (render : State) (reward : Reward.t) (code : string)
    (st : State) : State * list Effect :=
  if Reward.cost reward <=? balance render then
    (setBalance (balance st - Reward.cost reward) st,
     [Display (Toast_Success ("BENGALURU-GREEN-" ++ code)%string)])
  else (st, [Display Toast_InsufficientBalance]).

End FirstRevision.

(** ** What holds of every world of the component *)

Definition pending_trip (p : Pending) : TripData.t :=
  match p with
  | AwaitMint trip => trip
  | AwaitBalance trip _ => trip
  end.

(** The values a suspended [submitTrip] holds were computed at its click:
    the tokens are [calculateTokens] of the mode and the distance, they are
    above zero, and the account is a wallet address. *)
Definition trip_from_click (trip : TripData.t) : Prop :=
  calculateTokens (TripData.mode trip) (TripData.distance trip)
    = Normal (TripData.tokensEarned trip)
  /\ gt (TripData.tokensEarned trip) (Num 0) = true
  /\ TripData.walletAddress trip <> "".

(** A call waits for the balance only with the result of a mint that
    succeeded. *)
Definition minted (p : Pending) : Prop :=
  match p with
  | AwaitMint _ => True
  | AwaitBalance _ mintResult => success mintResult = true
  end.

(** No redemption is left open between two turns; the balance is not
    negative; a provider is stored with every account; [minting] is set
    exactly while one [submitTrip] is suspended, and there is never more
    than one. *)
Definition invariant (w : World) : Prop :=
  redeeming (ui w) = false
  /\ 0 <= balance (ui w)
  /\ (account (ui w) = None \/ provider (ui w) = Some BrowserProvider)
  /\ (minting (ui w) = false /\ pending w = []
      \/ minting (ui w) = true /\ exists p, pending w = [p])
  /\ Forall (fun p => trip_from_click (pending_trip p)) (pending w)
  /\ Forall minted (pending w).

(** ** The component and the server together *)


(** ** Worlds and stores used as examples *)

(** The address of the mock wallet of [createMockEthereum]. *)
Definition mock_address : string :=
  "0x742d35cc6e4d2bb3d4b8c85f53533f8f2f4d5b1f".

(** The component once the wallet is connected and [balanceOf] has
    answered [tokens] whole tokens. *)
Definition world_connected (tokens : N) : World :=
  fst (step (fst (step initial_World (Wallet_connected mock_address)))
            (Balance_fetched (Balance_read (tokens * 10 ^ 18)))).

(** The same with the trip form filled in. *)
Definition world_with_form (tokens : N) (mode : string) (distance : Q)
  : World :=
  fst (step (world_connected tokens)
            (Form_changed (TripForm.mk mode (Some (Num distance))))).

(* ================================================================== *)
(** * More of the component and of the server *)
(* ================================================================== *)

(** ** The preview of the tokens in the trip dialog *)

(** The line [{tripForm.distance && ... calculateTokens(tripForm.mode,
    parseFloat(tripForm.distance)) ...}] of the dialog: nothing is shown
    for an empty distance, and otherwise what [calculateTokens] gives. *)
Definition tokens_preview (st : State) : option (completion number) :=
  match TripForm.distance (tripForm st) with
  | None => None
  | Some distance =>
      Some (calculateTokens (TripForm.mode (tripForm st)) distance)
  end.

(** ** [connectWallet] *)

Definition setLoading (v : bool) (st : State) : State :=
  mkState (account st) (balance st) v (redeeming st) (minting st)
          (provider st) (showTripModal st) (tripForm st).

(** How [wallet_switchEthereumChain] ends: done, or an error with its
    [code], if it has one. *)
Inductive SwitchOutcome : Type :=
| Switched
| Switch_failed (code : option Z).

(** What the wallet and the ledger answer to one call of
    [connectWallet]. *)
Record WalletAnswers : Type := mkWalletAnswers {
  (** [typeof window.ethereum !== 'undefined'] *)
  ethereum : bool;
  (** [await import('ethers')] and [new ethers.BrowserProvider] succeed *)
  import_ethers : bool;
  (** [eth_requestAccounts] is granted *)
  eth_requestAccounts : bool;
  wallet_switchEthereumChain : SwitchOutcome;
  (** [wallet_addEthereumChain] succeeds *)
  wallet_addEthereumChain : bool;
  (** [provider.getSigner()] then [signer.getAddress()] *)
  signer_address : option string;
  balanceOf : BalanceOutcome
}.

(** The toasts of [connectWallet]. *)
Inductive WalletToast : Type :=
| Toast_WalletConnected
| Toast_FailedToConnect
| Toast_MetaMaskNotFound.

Definition WalletToast_title (t : WalletToast) : string :=
  match t with
  | Toast_WalletConnected => "Wallet connected successfully!"
  | Toast_FailedToConnect => "Failed to connect wallet"
  | Toast_MetaMaskNotFound => "MetaMask not found"
  end.

Inductive ConnectEffect : Type :=
| Wallet_toast (t : WalletToast)
| Component (e : Effect).

(** The inner [try] around the switch of the chain: an error is caught;
    with the code 4902 the chain is added, which may fail in turn; with
    any other code the error is dropped. [false] stands for an error that
    leaves the inner [catch]. *)
Definition switch_to_Sepolia (ans : WalletAnswers) : bool :=
  match wallet_switchEthereumChain ans with
  | Switched => true
  | Switch_failed (Some code) =>
      if code =? 4902 then wallet_addEthereumChain ans else true
  | Switch_failed None => true
  end.

(** [connectWallet], with nothing else in between. *)
Definition connectWallet (ans : WalletAnswers) (st : State)
  : State * list ConnectEffect :=
  if ethereum ans then
    let st1 := setLoading true st in
    let failed :=
      (setLoading false st1, [Wallet_toast Toast_FailedToConnect]) in
    if import_ethers ans then
      if eth_requestAccounts ans then
        if switch_to_Sepolia ans then
          match signer_address ans with
          | Some address =>
              let st2 := setProvider (Some BrowserProvider)
                           (setAccount (Some address) st1) in
              let '(st3, out) := fetchBalance (balanceOf ans) st2 in
              (setLoading false st3,
               map Component out ++ [Wallet_toast Toast_WalletConnected])
          | None => failed
          end
        else failed
      else failed
    else failed
  else (st, [Wallet_toast Toast_MetaMaskNotFound]).

(** ** Several redemptions in a row *)




(** ** The stores [MemStorage] can come to *)

Inductive mem_reachable : MemStorage.t -> Prop :=
| mem_new : mem_reachable MemStorage.new
| mem_auth s w f :
    mem_reachable s -> mem_reachable (snd (post_api_auth_wallet s w f))
| mem_trip s req fu ft :
    mem_reachable s -> mem_reachable (snd (post_api_trips s req fu ft)).

(** Most recent first. *)
Definition not_older (a b : Trip.t) : Prop :=
  Trip.createdAt b <= Trip.createdAt a.

(** The trips of one instant, in the order of the list. *)
Definition of_instant (t : Z) (l : list Trip.t) : list Trip.t :=
  filter (fun trip => Trip.createdAt trip =? t) l.

(** The address of a user with its letters lowered. *)
Definition lowered_address (u : User.t) : string :=
  toLowerCase (User.walletAddress u).

(** ** Turns in a row *)

(** The component after the events of a list, one turn each. *)
Definition run (w : World) (events : list Event) : World :=
  fold_left (fun w e => fst (step w e)) events w.

(** An event that is no answer of the ledger to a suspended
    [submitTrip]. *)
Definition quiet (e : Event) : Prop :=
  match e with
  | Mint_settled _ _ | Balance_settled _ _ => False
  | _ => True
  end.

(* ================================================================== *)
(** * Properties of the reward policy *)
(* ================================================================== *)

Section RewardPolicyFacts.

Open Scope Q_scope.





(** Outside the keys of [rates] a read gives no number. *)
Lemma get_rates_unknown (mode : string) :
  known_mode mode = false -> ToNumber (get rates mode) = NaN.
Proof.
  unfold known_mode, get. destruct (own_property rates mode).
  - discriminate.
  - intros _. now destruct (existsb _ _).
Qed.

Lemma known_mode_iff (mode : string) :
  known_mode mode = true <-> exists m, mode = mode_key m.
Proof.
  cbv beta iota delta [known_mode rates own_property]. split.
  - destruct (String.eqb_spec "Walking" mode) as [<- | _];
      [ now exists Walking | ].
    destruct (String.eqb_spec "Cycling" mode) as [<- | _];
      [ now exists Cycling | ].
    destruct (String.eqb_spec "Public Transport" mode) as [<- | _];
      [ now exists PublicTransport | discriminate ].
  - intros [m ->]. now destruct m.
Qed.

End RewardPolicyFacts.



(** C8, the claim as written fails: for a mode that is no key of [rates]
    the call returns, and what it returns is [NaN]; nothing is thrown. *)
Lemma calculateTokens_unknown_mode_returns :
  known_mode "Hovercraft" = false
  /\ calculateTokens "Hovercraft" (Num 10) = Normal NaN
  /\ ~ (exists e, calculateTokens "Hovercraft" (Num 10) = Throw e).
Proof.
  split; [ reflexivity | ]. split; [ reflexivity | ].
  intros [e He]. discriminate He.
Qed.

(** C8, amended. For every mode that is no key of [rates] and every
    distance, [calculateTokens] returns [NaN]; and for no mode and no
    distance does it throw. *)
Theorem calculateTokens_unknown_mode_is_NaN :
  forall (mode : string) (distance : number),
    known_mode mode = false ->
    calculateTokens mode distance = Normal NaN
    /\ (forall mode' distance' e,
          calculateTokens mode' distance' <> Throw e).
Proof.
  intros mode distance Hunknown. split.
  - unfold calculateTokens. now rewrite (get_rates_unknown _ Hunknown).
  - intros mode' distance' e. unfold calculateTokens. discriminate.
Qed.

Lemma calculateTokens_unknown_mode_is_NaN_witness :
  known_mode "toString" = false
  /\ calculateTokens "toString" (Num 4) = Normal NaN.
Proof.
  split; [ reflexivity | ].
  exact (proj1 (@calculateTokens_unknown_mode_is_NaN
                  "toString" (Num 4) eq_refl)).
Defined.

(* ================================================================== *)
(** * Properties of the component *)
(* ================================================================== *)



Lemma whole_tokens_nonneg (wei : N) : 0 <= whole_tokens wei.
Proof. unfold whole_tokens. apply Z.div_pos; lia. Qed.

Lemma truthy_Some (a : option string) (s : string) :
  truthy a = Some s -> a = Some s /\ s <> "".
Proof.
  destruct a as [x |]; simpl; [ | discriminate ].
  destruct (String.eqb_spec x ""); [ discriminate | ].
  intros [= ->]. now split.
Qed.


(** [submitTrip] at a click, case by case. *)
Lemma submitTrip_cases (st : State) :
  (exists out, submitTrip st st = (st, out, None))
  \/ (minting st = false
      /\ exists out, submitTrip st st = (setMinting false st, out, None))
  \/ (minting st = false
      /\ exists trip,
           submitTrip st st
             = (setMinting true st,
                [Ledger_mint (TripData.walletAddress trip)
                             (TripData.tokensEarned trip)],
                Some (AwaitMint trip))
           /\ trip_from_click trip).
Proof.
  unfold submitTrip.
  destruct (minting st) eqn:Hm; [ left; eauto | ].
  destruct (TripForm.distance (tripForm st)) as [distance |];
    [ | left; eauto ].
  destruct (le distance (Num 0)); [ left; eauto | ].
  destruct (calculateTokens _ distance) as [tokens | e] eqn:Hcalc;
    [ | left; eauto ].
  destruct (truthy (account st)) as [acc |] eqn:Hacc; [ | left; eauto ].
  apply truthy_Some in Hacc. destruct Hacc as [_ Hne].
  destruct (provider st).
  - destruct (gt tokens (Num 0)) eqn:Hgt.
    + right; right. split; [ reflexivity | ].
      exists (TripData.mk acc (TripForm.mode (tripForm st)) distance tokens).
      split; [ reflexivity | ]. now repeat split.
    + right; left. split; [ reflexivity | ]. eexists. reflexivity.
  - right; left. split; [ reflexivity | ]. eexists. reflexivity.
Qed.

Lemma fetchBalance_balance (outcome : BalanceOutcome) (st : State) :
  balance (fst (fetchBalance outcome st))
  = match outcome with
    | Balance_read wei => whole_tokens wei
    | Balance_failed => balance st
    end
  /\ account (fst (fetchBalance outcome st)) = account st
  /\ provider (fst (fetchBalance outcome st)) = provider st
  /\ redeeming (fst (fetchBalance outcome st)) = redeeming st
  /\ minting (fst (fetchBalance outcome st)) = minting st.
Proof. destruct outcome; simpl; auto. Qed.

Lemma submitTrip_balanced_state (trip : TripData.t) (r : MintResult)
    (outcome : BalanceOutcome) (st : State) :
  let st' := fst (submitTrip_balanced trip r outcome st) in
  balance st' = balance (fst (fetchBalance outcome st))
  /\ account st' = account st
  /\ provider st' = provider st
  /\ redeeming st' = redeeming st
  /\ minting st' = false.
Proof.
  unfold submitTrip_balanced.
  destruct (fetchBalance_balance outcome st) as (_ & Ha & Hp & Hr & _).
  destruct (fetchBalance outcome st) as [st1 out1]. simpl in *.
  destruct (txHash r); simpl; auto.
Qed.

Ltac close_invariant :=
  unfold invariant; simpl; repeat split; simpl; auto;
  try solve [ left; split; auto ];
  try solve [ right; split; [ auto | eexists; reflexivity ] ];
  try solve [ repeat constructor; simpl; auto ].

Lemma step_invariant (w : World) (e : Event) :
  invariant w -> invariant (fst (step w e)).
Proof.
  intros (Hred & Hbal & Hprov & Hmint & Htrips & Hminted).
  destruct w as [st pend]. simpl in *.
  destruct e; simpl.
  - (* Wallet_connected *)
    close_invariant.
  - (* Balance_fetched *)
    destruct (fetchBalance_balance outcome st) as (Hb & Ha & Hp & Hr & Hm).
    destruct (fetchBalance outcome st) as [st1 out]. simpl in *.
    unfold invariant. simpl. rewrite Hb, Ha, Hp, Hr, Hm.
    repeat split; auto.
    destruct outcome; [ apply whole_tokens_nonneg | assumption ].
  - (* Form_changed *)
    close_invariant.
  - (* Modal_changed *)
    close_invariant.
  - (* Click_submit *)
    destruct (submitTrip_cases st)
      as [[out Hs] | [[Hm [out Hs]] | [Hm [trip [Hs Hok]]]]];
      rewrite Hs; simpl.
    + close_invariant.
    + destruct Hmint as [[_ ->] | [Hm' _]]; [ | congruence ].
      close_invariant.
    + destruct Hmint as [[_ ->] | [Hm' _]]; [ | congruence ].
      close_invariant.
  - (* Mint_settled *)
    destruct Hmint as [[Hm ->] | [Hm [p ->]]].
    + destruct i; close_invariant.
    + destruct i as [| i]; simpl; [ | destruct i; close_invariant ].
      destruct p as [trip | trip r]; simpl; [ | close_invariant ].
      inversion Htrips as [| ? ? Hok _]; subst. simpl in Hok.
      unfold submitTrip_minted.
      destruct outcome as [h | cause]; close_invariant.
  - (* Balance_settled *)
    destruct Hmint as [[Hm ->] | [Hm [p ->]]].
    + destruct i; close_invariant.
    + destruct i as [| i]; simpl; [ | destruct i; close_invariant ].
      destruct p as [trip | trip r]; simpl; [ close_invariant | ].
      destruct (submitTrip_balanced_state trip r outcome st)
        as (Hb & Ha & Hp & Hr & Hm').
      destruct (fetchBalance_balance outcome st) as (Hb' & _).
      destruct (submitTrip_balanced trip r outcome st) as [st1 out].
      simpl in *. unfold invariant. simpl.
      rewrite Hb, Hb', Ha, Hp, Hr, Hm'.
      repeat split; auto.
      destruct outcome; [ apply whole_tokens_nonneg | assumption ].
  - (* Click_redeem *)
    unfold redeemReward. rewrite Hred.
    close_invariant.
    destruct (Z.leb_spec (Reward.cost reward) (balance st)); lia.
  - (* Trip_saved *)
    close_invariant.
  - (* Trip_not_saved *)
    close_invariant.
Qed.

Lemma reachable_invariant (w : World) : reachable w -> invariant w.
Proof.
  induction 1 as [| w e _ IH].
  - repeat split; simpl; auto. lia.
  - now apply step_invariant.
Qed.

Lemma le_zero_false (d : Q) : (0 < d)%Q -> le (Num d) (Num 0) = false.
Proof.
  intros Hd. simpl. destruct (Qle_bool d 0) eqn:H; [ | reflexivity ].
  apply Qle_bool_iff in H. now apply Qlt_not_le in Hd.
Qed.

(** A click on a well-filled form, with the wallet connected and nothing
    in flight, sets [minting] and asks the ledger for the mint. *)
Lemma submitTrip_starts_mint (st : State) (acc mode : string) (d : Q)
    (tokens : number) :
  minting st = false ->
  truthy (account st) = Some acc ->
  provider st = Some BrowserProvider ->
  tripForm st = TripForm.mk mode (Some (Num d)) ->
  (0 < d)%Q ->
  calculateTokens mode (Num d) = Normal tokens ->
  gt tokens (Num 0) = true ->
  submitTrip st st
  = (setMinting true st, [Ledger_mint acc tokens],
     Some (AwaitMint (TripData.mk acc mode (Num d) tokens))).
Proof.
  intros Hm Hacc Hprov Hform Hd Hcalc Hgt.
  unfold submitTrip. rewrite Hm, Hform. cbn [TripForm.distance TripForm.mode].
  rewrite (le_zero_false Hd), Hcalc, Hacc, Hprov, Hgt. reflexivity.
Qed.



(** C6. While a [submitTrip] is suspended on the ledger, a new click on
    submit is turned away at once and nothing is queued; the suspended
    call ends when the mint fails or, after a confirmed mint, when the
    balance read settles, and from then on a click starts a new mint;
    never are two calls suspended at once. *)
Theorem submit_turned_away_while_in_flight :
  forall (w : World),
    reachable w ->
    (length (pending w) <= 1)%nat
    /\ (minting (ui w) = true <-> pending w <> [])
    /\ (pending w <> [] ->
        step w Click_submit
        = (w, [Console_log "Already minting, ignoring duplicate submission"]))
    /\ (forall trip cause,
          pending w = [AwaitMint trip] ->
          let w' := fst (step w (Mint_settled 0 (Mint_failed cause))) in
          pending w' = [] /\ minting (ui w') = false)
    /\ (forall trip h,
          pending w = [AwaitMint trip] ->
          let w' := fst (step w (Mint_settled 0 (Mint_confirmed h))) in
          pending w' = [AwaitBalance trip (mkMintResult true h)]
          /\ minting (ui w') = true)
    /\ (forall trip r read,
          pending w = [AwaitBalance trip r] ->
          let w' := fst (step w (Balance_settled 0 read)) in
          pending w' = [] /\ minting (ui w') = false)
    /\ (forall acc mode d tokens,
          pending w = [] ->
          truthy (account (ui w)) = Some acc ->
          tripForm (ui w) = TripForm.mk mode (Some (Num d)) ->
          (0 < d)%Q ->
          calculateTokens mode (Num d) = Normal tokens ->
          gt tokens (Num 0) = true ->
          step w Click_submit
          = (mkWorld (setMinting true (ui w))
                     [AwaitMint (TripData.mk acc mode (Num d) tokens)],
             [Ledger_mint acc tokens])).
Proof.
  intros w Hreach.
  pose proof (reachable_invariant Hreach) as (_ & _ & Hprov & Hmint & _).
  destruct w as [st pend]. cbn [ui pending] in *.
  split; [ destruct Hmint as [[_ ->] | [_ [p ->]]]; simpl; lia | ].
  split.
  { destruct Hmint as [[Hm ->] | [Hm [p ->]]]; split; intros H;
      congruence. }
  split.
  { intros Hne. destruct Hmint as [[_ ->] | [Hm _]]; [ congruence | ].
    cbn [step ui pending]. unfold submitTrip. rewrite Hm. reflexivity. }
  split.
  { intros trip cause ->. simpl. split; reflexivity. }
  split.
  { intros trip h ->. simpl. split; [ reflexivity | ].
    destruct Hmint as [[_ H] | [Hm _]]; [ discriminate H | exact Hm ]. }
  split.
  { intros trip r read ->. cbn [step ui pending nth_error remove_nth].
    pose proof (submitTrip_balanced_state trip r read st) as (_ & _ & _ & _ & H).
    destruct (submitTrip_balanced trip r read st) as [st1 out].
    simpl in *. split; [ reflexivity | exact H ]. }
  intros acc mode d tokens -> Hacc Hform Hd Hcalc Hgt.
  destruct Hmint as [[Hm _] | [_ [p H]]]; [ | discriminate H ].
  destruct Hprov as [Hnone | Hprov];
    [ rewrite Hnone in Hacc; discriminate Hacc | ].
  cbn [step ui pending].
  rewrite (submitTrip_starts_mint st Hm Hacc Hprov Hform Hd Hcalc Hgt).
  reflexivity.
Qed.

Lemma submit_turned_away_while_in_flight_witness :
  let w := fst (step (world_with_form 125 "Walking" 10) Click_submit) in
  reachable w
  /\ pending w
     = [AwaitMint (TripData.mk mock_address "Walking" (Num 10) (Num 10))]
  /\ step w Click_submit
     = (w, [Console_log "Already minting, ignoring duplicate submission"]).
Proof.
  intros w.
  assert (Hreach : reachable w)
    by (unfold w, world_with_form, world_connected; repeat constructor).
  split; [ exact Hreach | ]. split; [ reflexivity | ].
  apply (submit_turned_away_while_in_flight Hreach). discriminate.
Defined.

(* ================================================================== *)
(** * Properties of the storage and the routes *)
(* ================================================================== *)

Lemma lower_ascii_idempotent (c : ascii) :
  lower_ascii (lower_ascii c) = lower_ascii c.
Proof. destruct c as [[] [] [] [] [] [] [] []]; reflexivity. Qed.

Lemma toLowerCase_idempotent (s : string) :
  toLowerCase (toLowerCase s) = toLowerCase s.
Proof.
  induction s as [| c s IH]; simpl; [ reflexivity | ].
  now rewrite lower_ascii_idempotent, IH.
Qed.


(** ** The [Map] of [MemStorage] *)

Lemma JsMap_set_fresh {V} (m : JsMap.t V) (key : string) (v : V) :
  JsMap.get m key = None -> JsMap.set m key v = m ++ [(key, v)].
Proof.
  induction m as [| [k x] m IH]; simpl; [ reflexivity | ].
  destruct (String.eqb k key); [ discriminate | ].
  intros H. now rewrite IH.
Qed.

Lemma JsMap_In_values_set {V} (m : JsMap.t V) (key : string) (v : V) :
  In v (JsMap.values (JsMap.set m key v)).
Proof.
  induction m as [| [k x] m IH]; simpl; [ now left | ].
  destruct (String.eqb k key); simpl; [ now left | now right ].
Qed.

(** After [set], the first value with a property none had before is the
    value that was set. *)
Lemma JsMap_find_values_set {V} (p : V -> bool) (m : JsMap.t V)
    (key : string) (v : V) :
  p v = true ->
  find p (JsMap.values m) = None ->
  find p (JsMap.values (JsMap.set m key v)) = Some v.
Proof.
  intros Hv. induction m as [| [k x] m IH]; simpl.
  - now rewrite Hv.
  - destruct (p x) eqn:Hx; [ discriminate | ]. intros Hnone.
    destruct (String.eqb k key); simpl.
    + now rewrite Hv.
    + rewrite Hx. now apply IH.
Qed.

(** ** Finding or creating the account, in [MemStorage] *)

Lemma mem_find_or_create (s : MemStorage.t) (a : string) (f : Fresh) :
  exists u s',
    find_or_create s a f = Normal (u, s')
    /\ toLowerCase (User.walletAddress u) = toLowerCase a
    /\ getUserByWalletAddress s' a = Some u
    /\ MemStorage.trips s' = MemStorage.trips s
    /\ (s' = s
        \/ (getUserByWalletAddress s a = None
            /\ u = User.mk (uuid f) a (now f)
            /\ MemStorage.users s'
               = JsMap.set (MemStorage.users s) (uuid f) u)).
Proof.
  unfold find_or_create. cbn [getUserByWalletAddress createUser
                              MemStorage_IStorage].
  destruct (MemStorage.getUserByWalletAddress s a) as [u |] eqn:Hfind.
  - exists u, s. split; [ reflexivity | ].
    split.
    { unfold MemStorage.getUserByWalletAddress in Hfind.
      apply find_some in Hfind. destruct Hfind as [_ H].
      now apply String.eqb_eq in H. }
    split; [ exact Hfind | ]. split; [ reflexivity | now left ].
  - unfold MemStorage.createUser. eexists. eexists.
    split; [ reflexivity | ]. cbn [User.walletAddress InsertUser.walletAddress].
    split; [ reflexivity | ].
    split.
    { unfold MemStorage.getUserByWalletAddress in *.
      cbn [MemStorage.users].
      apply JsMap_find_values_set; [ | exact Hfind ].
      apply String.eqb_refl. }
    split; [ reflexivity | right ]. repeat split.
Qed.

(** A lookup only looks at the address with its letters lowered. *)
Lemma mem_lookup_case_variant (s : MemStorage.t) (a b : string) :
  toLowerCase b = toLowerCase a ->
  MemStorage.getUserByWalletAddress s b
  = MemStorage.getUserByWalletAddress s a.
Proof.
  intros H. unfold MemStorage.getUserByWalletAddress. now rewrite H.
Qed.


(** ** Finding or creating the account, in [DatabaseStorage] *)

Lemma first_filter_Some {A} (p : A -> bool) (l : list A) (x : A) :
  DatabaseStorage.first (filter p l) = Some x -> In x l /\ p x = true.
Proof.
  unfold DatabaseStorage.first. intros H.
  assert (Hin : In x (filter p l)).
  { destruct (filter p l); [ discriminate | ].
    injection H as ->. now left. }
  now apply filter_In in Hin.
Qed.

Lemma first_filter_None {A} (p : A -> bool) (l : list A) :
  DatabaseStorage.first (filter p l) = None -> filter p l = [].
Proof.
  unfold DatabaseStorage.first. now destruct (filter p l).
Qed.

Lemma db_find_or_create (s : DatabaseStorage.t) (a : string) (f : Fresh) :
  (exists u, getUserByWalletAddress s a = Some u
             /\ find_or_create s a f = Normal (u, s)
             /\ In u (DatabaseStorage.users s)
             /\ User.walletAddress u = toLowerCase a)
  \/ (getUserByWalletAddress s a = None
      /\ DatabaseStorage.select_users_by_id s (uuid f) = []
      /\ let u := User.mk (uuid f) (toLowerCase a) (now f) in
         let s' := DatabaseStorage.mk (DatabaseStorage.users s ++ [u])
                                      (DatabaseStorage.trips s) in
         find_or_create s a f = Normal (u, s')
         /\ getUserByWalletAddress s' a = Some u)
  \/ (getUserByWalletAddress s a = None
      /\ DatabaseStorage.select_users_by_id s (uuid f) <> []
      /\ exists e, find_or_create s a f = Throw e).
Proof.
  unfold find_or_create. cbn [getUserByWalletAddress createUser
                              DatabaseStorage_IStorage].
  destruct (DatabaseStorage.getUserByWalletAddress s a) as [u |] eqn:Hfind.
  - left. exists u. split; [ reflexivity | ]. split; [ reflexivity | ].
    unfold DatabaseStorage.getUserByWalletAddress,
      DatabaseStorage.select_users_by_walletAddress in Hfind.
    apply first_filter_Some in Hfind. destruct Hfind as [Hin H].
    split; [ exact Hin | now apply String.eqb_eq in H ].
  - right.
    pose proof Hfind as Hnone.
    unfold DatabaseStorage.getUserByWalletAddress in Hnone.
    apply first_filter_None in Hnone.
    fold (DatabaseStorage.select_users_by_walletAddress s (toLowerCase a))
      in Hnone.
    unfold DatabaseStorage.createUser,
      DatabaseStorage.insert_user_onConflictDoNothing.
    cbn [InsertUser.walletAddress]. rewrite Hnone.
    destruct (DatabaseStorage.select_users_by_id s (uuid f)) eqn:Hid.
    + left. split; [ reflexivity | ]. split; [ reflexivity | ].
      cbn [bind fst snd DatabaseStorage.first hd_error].
      split; [ reflexivity | ].
      unfold DatabaseStorage.getUserByWalletAddress,
        DatabaseStorage.select_users_by_walletAddress in *.
      cbn [DatabaseStorage.users]. rewrite filter_app, Hnone.
      cbn [filter User.walletAddress app].
      now rewrite String.eqb_refl.
    + right. split; [ reflexivity | ]. split; [ discriminate | ].
      cbn [bind]. rewrite Hfind. eexists. reflexivity.
Qed.

Lemma db_lookup_case_variant (s : DatabaseStorage.t) (a b : string) :
  toLowerCase b = toLowerCase a ->
  DatabaseStorage.getUserByWalletAddress s b
  = DatabaseStorage.getUserByWalletAddress s a.
Proof.
  intros H. unfold DatabaseStorage.getUserByWalletAddress. now rewrite H.
Qed.


(** ** The route that stores a trip *)

Lemma insertTripSchema_parse_Some (userId : string) (m d n : json)
    (t : InsertTrip.t) :
  insertTripSchema_parse userId m d n = Some t ->
  exists m' d' n',
    m = JString m' /\ d = JNumber d' /\ n = JNumber n'
    /\ t = InsertTrip.mk userId m' d' (Qfloor n')
    /\ (inject_Z (Qfloor n') == n')%Q.
Proof.
  unfold insertTripSchema_parse.
  destruct m as [| | | | m']; try discriminate.
  destruct d as [| | | d' |]; try discriminate.
  destruct n as [| | | n' |]; try discriminate.
  destruct (isInteger (Num n')) eqn:Hint; [ | discriminate ].
  intros [= <-]. exists m', d', n'. repeat split.
  now apply Qeq_bool_iff in Hint.
Qed.

Section RouteFacts.

Context {S : Type} {storage : IStorage S} {rows : Rows S}.

(** What both implementations of [createTrip] do when they return. *)
Hypothesis createTrip_row :
  forall (s s' : S) (t : InsertTrip.t) (f : Fresh) (row : Trip.t),
    createTrip s t f = Normal (row, s') ->
    row = Trip.mk (uuid f) (InsertTrip.userId t) (InsertTrip.mode t)
                  (InsertTrip.distance t) (InsertTrip.tokensEarned t)
                  (now f)
    /\ In row (all_trips s').


End RouteFacts.

Lemma mem_createTrip_row (s s' : MemStorage.t) (t : InsertTrip.t)
    (f : Fresh) (row : Trip.t) :
  createTrip s t f = Normal (row, s') ->
  row = Trip.mk (uuid f) (InsertTrip.userId t) (InsertTrip.mode t)
                (InsertTrip.distance t) (InsertTrip.tokensEarned t) (now f)
  /\ In row (all_trips s').
Proof.
  cbn [createTrip MemStorage_IStorage]. unfold MemStorage.createTrip.
  intros [= <- <-]. split; [ reflexivity | ].
  cbn [all_trips MemStorage_Rows MemStorage.trips].
  apply JsMap_In_values_set.
Qed.

Lemma db_createTrip_row (s s' : DatabaseStorage.t) (t : InsertTrip.t)
    (f : Fresh) (row : Trip.t) :
  createTrip s t f = Normal (row, s') ->
  row = Trip.mk (uuid f) (InsertTrip.userId t) (InsertTrip.mode t)
                (InsertTrip.distance t) (InsertTrip.tokensEarned t) (now f)
  /\ In row (all_trips s').
Proof.
  cbn [createTrip DatabaseStorage_IStorage].
  unfold DatabaseStorage.createTrip.
  destruct (filter _ (DatabaseStorage.trips s)); [ | discriminate ].
  destruct (DatabaseStorage.select_users_by_id s _); [ discriminate | ].
  intros [= <- <-]. split; [ reflexivity | ].
  cbn [all_trips DatabaseStorage_Rows DatabaseStorage.trips].
  apply in_or_app. right. now left.
Qed.




(* ================================================================== *)
(** * The submission of a trip, end to end *)
(* ================================================================== *)

(** Tokens above zero are a whole number. *)
Lemma calculateTokens_whole (mode : string) (distance tokens : number) :
  calculateTokens mode distance = Normal tokens ->
  gt tokens (Num 0) = true ->
  exists z : Z, tokens = Num (inject_Z z).
Proof.
  unfold calculateTokens. intros [= <-].
  destruct (mul _ distance) as [q |]; simpl; [ | discriminate ].
  intros _. now exists (Qfloor q).
Qed.

Lemma setMinting_false_true (st : State) :
  minting st = false -> setMinting false (setMinting true st) = st.
Proof. destruct st; simpl. now intros ->. Qed.






(** With nothing in flight [minting] is off, and with an account there is
    a provider. *)
Lemma idle_world (w : World) (acc : string) :
  reachable w ->
  pending w = [] ->
  truthy (account (ui w)) = Some acc ->
  minting (ui w) = false /\ provider (ui w) = Some BrowserProvider.
Proof.
  intros Hreach Hidle Hacc.
  pose proof (reachable_invariant Hreach) as (_ & _ & Hprov & Hmint & _).
  split.
  - destruct Hmint as [[Hm _] | [_ [p Hp]]]; [ exact Hm | congruence ].
  - destruct Hprov as [Hnone | Hprov]; [ | exact Hprov ].
    rewrite Hnone in Hacc. discriminate Hacc.
Qed.



(** C7, the claim as written fails: Public Transport over 1 km earns 0
    tokens, and the submission then ends in the toast "Trip submission
    failed"; nothing is posted, so no trip is logged. *)
Lemma zero_token_trip_is_not_logged :
  let st := ui (world_with_form 125 "Public Transport" 1) in
  let r := submission st (Mint_confirmed (Some "0x9f3c61d2a7"))
                      (Balance_read 0) in
  calculateTokens "Public Transport" (Num 1) = Normal (Num 0)
  /\ posted (snd r) = []
  /\ mints (snd r) = []
  /\ toasts (snd r)
     = [Toast_TripSubmissionFailed
          "There was an error logging your trip. Please try again."].
Proof. repeat split; reflexivity. Qed.

(** C7, amended. A submission from a connected wallet, with nothing in
    flight and a distance above zero, whose tokens come to exactly 0 asks
    for no mint, posts no trip and ends in the toast "Trip submission
    failed"; the state is what it was. *)
Theorem zero_token_submission_fails_without_mint :
  forall (w : World) (acc mode : string) (d t : Q)
         (mint : MintOutcome) (read : BalanceOutcome),
    reachable w ->
    pending w = [] ->
    truthy (account (ui w)) = Some acc ->
    tripForm (ui w) = TripForm.mk mode (Some (Num d)) ->
    (0 < d)%Q ->
    calculateTokens mode (Num d) = Normal (Num t) ->
    (t == 0)%Q ->
    submission (ui w) mint read
    = (ui w,
       [Display (Toast_TripSubmissionFailed
                   "There was an error logging your trip. Please try again.")])
    /\ mints (snd (submission (ui w) mint read)) = []
    /\ posted (snd (submission (ui w) mint read)) = [].
Proof.
  intros w acc mode d t mint read Hreach Hidle Hacc Hform Hd Hcalc Ht.
  destruct (idle_world Hreach Hidle Hacc) as [Hm _].
  generalize dependent (ui w). intros st Hacc Hform Hm.
  assert (Hgt : gt (Num t) (Num 0) = false).
  { simpl. apply negb_false_iff, Qle_bool_iff. rewrite Ht. apply Qle_refl. }
  assert (Hsub : submission st mint read
                 = (st, [Display (Toast_TripSubmissionFailed
                       "There was an error logging your trip. Please try again.")])).
  { unfold submission, submitTrip. rewrite Hm, Hform.
    cbn [TripForm.distance TripForm.mode].
    rewrite (le_zero_false Hd), Hcalc, Hacc, Hgt.
    unfold submitTrip_catch. rewrite (setMinting_false_true st Hm).
    destruct (provider st); reflexivity. }
  rewrite Hsub. repeat split.
Qed.

Lemma zero_token_submission_fails_without_mint_witness :
  let w := world_with_form 40 "Public Transport" 4.9 in
  reachable w
  /\ (0 < 4.9)%Q
  /\ calculateTokens "Public Transport" (Num 4.9) = Normal (Num 0)
  /\ posted (snd (submission (ui w) (Mint_failed "") Balance_failed)) = [].
Proof.
  intros w.
  assert (Hreach : reachable w)
    by (unfold w, world_with_form, world_connected; repeat constructor).
  split; [ exact Hreach | ]. split; [ reflexivity | ].
  split; [ reflexivity | ].
  exact (proj2 (proj2
           (@zero_token_submission_fails_without_mint w mock_address
              "Public Transport" 4.9 0 (Mint_failed "") Balance_failed
              Hreach eq_refl eq_refl eq_refl eq_refl eq_refl eq_refl))).
Defined.

(* ================================================================== *)
(** * The balance *)
(* ================================================================== *)





(* ================================================================== *)
(** * The tokens of a stored trip *)
(* ================================================================== *)




(* ================================================================== *)
(** * Account resolution *)
(* ================================================================== *)

Lemma db_find_or_create_lower (s s' : DatabaseStorage.t) (a : string)
    (f : Fresh) (u : User.t) :
  db_lower s -> find_or_create s a f = Normal (u, s') -> db_lower s'.
Proof.
  intros Hlower Hfc.
  destruct (db_find_or_create s a f)
    as [(u0 & _ & H & _) | [(_ & _ & H & _) | (_ & _ & e & H)]];
    rewrite H in Hfc; [ | | discriminate ].
  - now injection Hfc as _ <-.
  - injection Hfc as _ <-. intros v Hin. cbn [DatabaseStorage.users] in Hin.
    apply in_app_or in Hin. destruct Hin as [Hin | [<- | []]].
    + now apply Hlower.
    + cbn [User.walletAddress]. symmetry. apply toLowerCase_idempotent.
Qed.

Lemma db_createTrip_users (s s' : DatabaseStorage.t) (t : InsertTrip.t)
    (f : Fresh) (row : Trip.t) :
  createTrip s t f = Normal (row, s') ->
  DatabaseStorage.users s' = DatabaseStorage.users s.
Proof.
  cbn [createTrip DatabaseStorage_IStorage].
  unfold DatabaseStorage.createTrip.
  destruct (filter _ (DatabaseStorage.trips s)); [ | discriminate ].
  destruct (DatabaseStorage.select_users_by_id s _); [ discriminate | ].
  now intros [= _ <-].
Qed.

(** Every address a store built by the routes holds is in lower case. *)
Lemma db_reachable_lower (s : DatabaseStorage.t) :
  db_reachable s -> db_lower s.
Proof.
  induction 1 as [| s w f _ IH | s req fu ft _ IH].
  - intros u [].
  - unfold post_api_auth_wallet.
    destruct (truthy w) as [a |]; [ | exact IH ].
    destruct (find_or_create s a f) as [[u s1] | e] eqn:Hfc; [ | exact IH ].
    exact (@db_find_or_create_lower _ _ _ _ _ IH Hfc).
  - unfold post_api_trips.
    destruct (truthy _) as [a |]; [ | exact IH ].
    destruct (find_or_create s a fu) as [[u s1] | e] eqn:Hfc; [ | exact IH ].
    pose proof (@db_find_or_create_lower _ _ _ _ _ IH Hfc) as H1.
    destruct (insertTripSchema_parse _ _ _ _) as [t |]; [ | exact H1 ].
    destruct (createTrip s1 t ft) as [[row s2] | e] eqn:Hct; [ | exact H1 ].
    cbn [snd]. intros v Hin. apply H1.
    now rewrite <- (@db_createTrip_users _ _ _ _ _ Hct).
Qed.




(* ================================================================== *)
(** * Listing the trips of an address *)
(* ================================================================== *)



(* ================================================================== *)
(** * The revision without a mint, for comparison *)
(* ================================================================== *)

(** There a trip is posted with no mint at all, even one of 0 tokens. *)
Remark first_revision_posts_without_mint :
  let st := ui (world_with_form 125 "Public Transport" 1) in
  snd (FirstRevision.submitTrip st st)
  = [Post_api_trips
       (TripData.mk mock_address "Public Transport" (Num 1) (Num 0))].
Proof. reflexivity. Qed.

(** And the tokens of the saved trip are added to the balance. *)
Remark first_revision_adds_tokens (data : Trip.t) (st : State) :
  balance (fst (FirstRevision.createTrip_onSuccess data st))
  = balance st + Trip.tokensEarned data.
Proof. reflexivity. Qed.

(* ================================================================== *)
(** * The list of the trips of a user *)
(* ================================================================== *)

Lemma insert_by_createdAt_perm (x : Trip.t) (l : list Trip.t) :
  Permutation (insert_by_createdAt x l) (x :: l).
Proof.
  induction l as [| y l IH]; simpl; [ reflexivity | ].
  destruct (Trip.createdAt y <=? Trip.createdAt x); [ reflexivity | ].
  rewrite IH. apply perm_swap.
Qed.

Lemma sort_most_recent_first_perm (l : list Trip.t) :
  Permutation (sort_most_recent_first l) l.
Proof.
  induction l as [| x l IH]; simpl; [ reflexivity | ].
  rewrite insert_by_createdAt_perm. now constructor.
Qed.

Lemma insert_by_createdAt_sorted (x : Trip.t) (l : list Trip.t) :
  StronglySorted not_older l ->
  StronglySorted not_older (insert_by_createdAt x l).
Proof.
  induction 1 as [| y l Hsorted IH Hall]; simpl.
  - repeat constructor.
  - destruct (Z.leb_spec (Trip.createdAt y) (Trip.createdAt x)) as [Hle | Hlt].
    + constructor; [ now constructor | ].
      constructor; [ exact Hle | ].
      rewrite Forall_forall in *. intros z Hz.
      specialize (Hall z Hz). unfold not_older in *. lia.
    + constructor; [ exact IH | ].
      rewrite Forall_forall in *. intros z Hz.
      apply (Permutation_in _ (insert_by_createdAt_perm x l)) in Hz.
      destruct Hz as [<- | Hz]; [ unfold not_older; lia | now apply Hall ].
Qed.

Lemma sort_most_recent_first_sorted (l : list Trip.t) :
  StronglySorted not_older (sort_most_recent_first l).
Proof.
  induction l as [| x l IH]; simpl; [ constructor | ].
  now apply insert_by_createdAt_sorted.
Qed.

(** Inserting keeps the trips of one instant in their order, the new one
    first. *)
Lemma insert_by_createdAt_of_instant (t : Z) (x : Trip.t) (l : list Trip.t) :
  of_instant t (insert_by_createdAt x l) = of_instant t (x :: l).
Proof.
  unfold of_instant. induction l as [| y l IH]; [ reflexivity | ].
  cbn [insert_by_createdAt].
  destruct (Z.leb_spec (Trip.createdAt y) (Trip.createdAt x)) as [Hle | Hlt];
    [ reflexivity | ].
  cbn [filter] in *. rewrite IH.
  destruct (Z.eqb_spec (Trip.createdAt x) t) as [Hx | Hx];
    [ | reflexivity ].
  destruct (Z.eqb_spec (Trip.createdAt y) t) as [Hy | Hy];
    [ lia | reflexivity ].
Qed.

Lemma sort_most_recent_first_of_instant (t : Z) (l : list Trip.t) :
  of_instant t (sort_most_recent_first l) = of_instant t l.
Proof.
  induction l as [| x l IH]; [ reflexivity | ].
  cbn [sort_most_recent_first fold_right].
  rewrite insert_by_createdAt_of_instant.
  unfold of_instant in *. cbn [filter].
  fold (sort_most_recent_first l). now rewrite IH.
Qed.

(** X1. [getTripsByUserId] gives the trips of the user asked for and no
    other: a trip is in the answer exactly when it is stored with that
    [userId], and as often as it is stored; in [MemStorage] and in
    [DatabaseStorage]. *)
Theorem getTripsByUserId_is_the_trips_of_the_user :
  forall (sm : MemStorage.t) (sd : DatabaseStorage.t) (userId : string),
    Permutation (getTripsByUserId sm userId)
                (filter (fun trip => String.eqb (Trip.userId trip) userId)
                        (all_trips sm))
    /\ Permutation (getTripsByUserId sd userId)
                   (filter (fun trip => String.eqb (Trip.userId trip) userId)
                           (all_trips sd))
    /\ (forall trip,
          In trip (getTripsByUserId sm userId)
          <-> In trip (all_trips sm) /\ Trip.userId trip = userId)
    /\ (forall trip,
          In trip (getTripsByUserId sd userId)
          <-> In trip (all_trips sd) /\ Trip.userId trip = userId).
Proof.
  intros sm sd userId.
  assert (Hm : Permutation (getTripsByUserId sm userId)
                 (filter (fun trip => String.eqb (Trip.userId trip) userId)
                         (all_trips sm)))
    by apply sort_most_recent_first_perm.
  assert (Hd : Permutation (getTripsByUserId sd userId)
                 (filter (fun trip => String.eqb (Trip.userId trip) userId)
                         (all_trips sd)))
    by apply sort_most_recent_first_perm.
  split; [ exact Hm | ]. split; [ exact Hd | ].
  split; intros trip; split.
  - intros Hin. apply (Permutation_in _ Hm) in Hin.
    apply filter_In in Hin. now rewrite String.eqb_eq in Hin.
  - intros [Hin Hu]. apply (Permutation_in _ (Permutation_sym Hm)).
    apply filter_In. now rewrite String.eqb_eq.
  - intros Hin. apply (Permutation_in _ Hd) in Hin.
    apply filter_In in Hin. now rewrite String.eqb_eq in Hin.
  - intros [Hin Hu]. apply (Permutation_in _ (Permutation_sym Hd)).
    apply filter_In. now rewrite String.eqb_eq.
Qed.

(** X2. The answer of [getTripsByUserId] is ordered most recent first, in
    [MemStorage] and in [DatabaseStorage]; and in [MemStorage], where the
    order comes from [Array.prototype.sort], trips created at the same
    instant keep the order in which they were put into the map. *)
Theorem getTripsByUserId_most_recent_first :
  forall (sm : MemStorage.t) (sd : DatabaseStorage.t) (userId : string),
    StronglySorted not_older (getTripsByUserId sm userId)
    /\ StronglySorted not_older (getTripsByUserId sd userId)
    /\ (forall t,
          of_instant t (getTripsByUserId sm userId)
          = of_instant t
              (filter (fun trip => String.eqb (Trip.userId trip) userId)
                      (all_trips sm))).
Proof.
  intros sm sd userId.
  split; [ apply sort_most_recent_first_sorted | ].
  split; [ apply sort_most_recent_first_sorted | ].
  intros t; apply sort_most_recent_first_of_instant.
Qed.

(* ================================================================== *)
(** * Posting a trip and listing it *)
(* ================================================================== *)

Lemma JsMap_In_values_set_inv {V} (m : JsMap.t V) (key : string) (v y : V) :
  In y (JsMap.values (JsMap.set m key v)) -> y = v \/ In y (JsMap.values m).
Proof.
  induction m as [| [k x] m IH]; simpl.
  - intros [<- | []]. now left.
  - destruct (String.eqb k key); simpl.
    + intros [<- | H]; [ now left | right; now right ].
    + intros [<- | H]; [ right; now left | ].
      destruct (IH H) as [-> | Hin]; [ now left | right; now right ].
Qed.

(** What lies behind an answer 200 of [POST /api/trips]. *)
Lemma post_api_trips_200 {S} {storage : IStorage S} (s s' : S)
    (req : TripRequest.t) (fu ft : Fresh) (row : Trip.t) :
  post_api_trips s req fu ft = (mkResponse 200 (Json_trip row), s') ->
  exists w user s1 t,
    truthy (TripRequest.walletAddress req) = Some w
    /\ find_or_create s w fu = Normal (user, s1)
    /\ insertTripSchema_parse (User.id user) (TripRequest.mode req)
         (TripRequest.distance req) (TripRequest.tokensEarned req) = Some t
    /\ createTrip s1 t ft = Normal (row, s').
Proof.
  unfold post_api_trips.
  destruct (truthy (TripRequest.walletAddress req)) as [w |] eqn:Hw;
    [ | discriminate ].
  destruct (find_or_create s w fu) as [[user s1] | e] eqn:Hfc;
    [ | discriminate ].
  destruct (insertTripSchema_parse _ _ _ _) as [t |] eqn:Hparse;
    [ | discriminate ].
  destruct (createTrip s1 t ft) as [[row' s2] | e] eqn:Hcreate;
    [ | discriminate ].
  intros [= -> ->]. now exists w, user, s1, t.
Qed.

Lemma parse_userId (userId : string) (m d n : json) (t : InsertTrip.t) :
  insertTripSchema_parse userId m d n = Some t ->
  InsertTrip.userId t = userId.
Proof.
  intros H. apply insertTripSchema_parse_Some in H.
  destruct H as (m' & d' & n' & _ & _ & _ & -> & _). reflexivity.
Qed.


(** Storing a trip leaves the users alone. *)
Lemma mem_createTrip_users (s s' : MemStorage.t) (t : InsertTrip.t)
    (f : Fresh) (row : Trip.t) :
  createTrip s t f = Normal (row, s') ->
  MemStorage.users s' = MemStorage.users s.
Proof.
  cbn [createTrip MemStorage_IStorage]. unfold MemStorage.createTrip.
  now intros [= _ <-].
Qed.

Lemma mem_lookup_users (s s' : MemStorage.t) (w : string) :
  MemStorage.users s' = MemStorage.users s ->
  MemStorage.getUserByWalletAddress s' w
  = MemStorage.getUserByWalletAddress s w.
Proof.
  intros H. unfold MemStorage.getUserByWalletAddress. now rewrite H.
Qed.

Lemma db_lookup_users (s s' : DatabaseStorage.t) (w : string) :
  DatabaseStorage.users s' = DatabaseStorage.users s ->
  DatabaseStorage.getUserByWalletAddress s' w
  = DatabaseStorage.getUserByWalletAddress s w.
Proof.
  intros H. unfold DatabaseStorage.getUserByWalletAddress,
              DatabaseStorage.select_users_by_walletAddress.
  now rewrite H.
Qed.

(** After finding or creating, a lookup finds the account. *)
Lemma db_find_or_create_found (s s' : DatabaseStorage.t) (a : string)
    (f : Fresh) (u : User.t) :
  find_or_create s a f = Normal (u, s') ->
  getUserByWalletAddress s' a = Some u.
Proof.
  intros Hfc.
  destruct (db_find_or_create s a f)
    as [(u0 & Hget & H & _) | [(_ & _ & H & Hget) | (_ & _ & e & H)]];
    rewrite H in Hfc; [ | | discriminate ].
  - now injection Hfc as <- <-.
  - now injection Hfc as <- <-.
Qed.

Lemma mem_find_or_create_found (s s' : MemStorage.t) (a : string)
    (f : Fresh) (u : User.t) :
  find_or_create s a f = Normal (u, s') ->
  getUserByWalletAddress s' a = Some u.
Proof.
  intros Hfc.
  destruct (mem_find_or_create s a f) as (u0 & s0 & H & _ & Hget & _).
  rewrite H in Hfc. now injection Hfc as <- <-.
Qed.

(** X3. A trip that [POST /api/trips] answered with 200 is in the list
    [GET /api/trips/:walletAddress] gives for the address of the request,
    in whatever letter case the address is written. *)
Theorem posted_trip_is_listed :
  forall (sm sm' : MemStorage.t) (sd sd' : DatabaseStorage.t)
         (req : TripRequest.t) (fu ft : Fresh) (rowm rowd : Trip.t)
         (w b : string),
    truthy (TripRequest.walletAddress req) = Some w ->
    toLowerCase b = toLowerCase w ->
    (post_api_trips sm req fu ft = (mkResponse 200 (Json_trip rowm), sm') ->
     exists l, get_api_trips sm' b = mkResponse 200 (Json_trips l)
               /\ In rowm l)
    /\ (post_api_trips sd req fu ft = (mkResponse 200 (Json_trip rowd), sd') ->
        exists l, get_api_trips sd' b = mkResponse 200 (Json_trips l)
                  /\ In rowd l).
Proof.
  intros sm sm' sd sd' req fu ft rowm rowd w b Hw Hb. split.
  - intros Hpost. apply post_api_trips_200 in Hpost.
    destruct Hpost as (w' & user & s1 & t & Hw' & Hfc & Hparse & Hcreate).
    rewrite Hw in Hw'. injection Hw' as <-.
    apply mem_find_or_create_found in Hfc.
    pose proof Hcreate as Husers. apply mem_createTrip_users in Husers.
    apply mem_createTrip_row in Hcreate. destruct Hcreate as [Hrow Hin].
    apply parse_userId in Hparse.
    unfold get_api_trips.
    cbn [getUserByWalletAddress MemStorage_IStorage] in *.
    rewrite (@mem_lookup_case_variant sm' w b Hb),
            (@mem_lookup_users s1 sm' w Husers), Hfc.
    eexists. split; [ reflexivity | ].
    apply (Permutation_in _
             (Permutation_sym (sort_most_recent_first_perm _))).
    apply filter_In. split; [ exact Hin | ].
    rewrite Hrow. cbn [Trip.userId]. rewrite Hparse. apply String.eqb_refl.
  - intros Hpost. apply post_api_trips_200 in Hpost.
    destruct Hpost as (w' & user & s1 & t & Hw' & Hfc & Hparse & Hcreate).
    rewrite Hw in Hw'. injection Hw' as <-.
    apply db_find_or_create_found in Hfc.
    pose proof Hcreate as Husers. apply db_createTrip_users in Husers.
    apply db_createTrip_row in Hcreate. destruct Hcreate as [Hrow Hin].
    apply parse_userId in Hparse.
    unfold get_api_trips.
    cbn [getUserByWalletAddress DatabaseStorage_IStorage] in *.
    rewrite (@db_lookup_case_variant sd' w b Hb),
            (@db_lookup_users s1 sd' w Husers), Hfc.
    eexists. split; [ reflexivity | ].
    apply (Permutation_in _
             (Permutation_sym (sort_most_recent_first_perm _))).
    apply filter_In. split; [ exact Hin | ].
    rewrite Hrow. cbn [Trip.userId]. rewrite Hparse. apply String.eqb_refl.
Qed.

Lemma posted_trip_is_listed_witness :
  let req := TripRequest.mk (Some "0x742D35Cc6E4d2Bb3D4b8C85F53533f8F2f4D5B1f")
                            (JString "Cycling") (JNumber 7) (JNumber 3) in
  let fu := mkFresh "6f1c2f0e-user" 1700000000000 in
  let ft := mkFresh "9a7b3c1d-trip" 1700000000001 in
  let row := Trip.mk "9a7b3c1d-trip" "6f1c2f0e-user" "Cycling" 7 3
                     1700000000001 in
  fst (post_api_trips MemStorage.new req fu ft)
  = mkResponse 200 (Json_trip row)
  /\ exists l,
       get_api_trips (snd (post_api_trips MemStorage.new req fu ft))
                     mock_address
       = mkResponse 200 (Json_trips l)
       /\ In row l.
Proof.
  intros req fu ft row. split; [ reflexivity | ].
  exact (proj1 (@posted_trip_is_listed
                  MemStorage.new (snd (post_api_trips MemStorage.new req fu ft))
                  DatabaseStorage.empty
                  (snd (post_api_trips DatabaseStorage.empty req fu ft))
                  req fu ft row row
                  "0x742D35Cc6E4d2Bb3D4b8C85F53533f8F2f4D5B1f" mock_address
                  eq_refl eq_refl) eq_refl).
Defined.



(* ================================================================== *)
(** * What the stores keep *)
(* ================================================================== *)

(** Setting a value whose key (under [f]) no stored value has keeps the
    keys apart. *)
Lemma JsMap_NoDup_set {V K} (f : V -> K) (m : JsMap.t V) (key : string)
    (v : V) :
  NoDup (map f (JsMap.values m)) ->
  ~ In (f v) (map f (JsMap.values m)) ->
  NoDup (map f (JsMap.values (JsMap.set m key v))).
Proof.
  induction m as [| [k x] m IH]; simpl; intros Hnd Hnew.
  - constructor; [ intros [] | constructor ].
  - inversion Hnd as [| ? ? Hx Hrest]; subst.
    destruct (String.eqb k key); simpl.
    + constructor; [ tauto | exact Hrest ].
    + constructor; [ | apply IH; tauto ].
      intros Hin. apply in_map_iff in Hin. destruct Hin as (y & Hfy & Hy).
      apply JsMap_In_values_set_inv in Hy. destruct Hy as [-> | Hy].
      * apply Hnew. left. now symmetry.
      * apply Hx. rewrite <- Hfy. now apply in_map.
Qed.

(** What finding or creating does to the users of [MemStorage]. *)
Lemma mem_find_or_create_users (s s' : MemStorage.t) (a : string) (f : Fresh)
    (u : User.t) :
  find_or_create s a f = Normal (u, s') ->
  MemStorage.trips s' = MemStorage.trips s
  /\ In u (JsMap.values (MemStorage.users s'))
  /\ (MemStorage.users s' = MemStorage.users s
      \/ (~ In (toLowerCase a)
               (map lowered_address (JsMap.values (MemStorage.users s)))
          /\ u = User.mk (uuid f) a (now f)
          /\ MemStorage.users s'
             = JsMap.set (MemStorage.users s) (uuid f) u)).
Proof.
  intros Hfc.
  destruct (mem_find_or_create s a f)
    as (u0 & s0 & H & _ & Hget & Htrips & Hcase).
  rewrite H in Hfc. injection Hfc as <- <-.
  split; [ exact Htrips | ].
  split.
  { cbn [getUserByWalletAddress MemStorage_IStorage] in Hget.
    unfold MemStorage.getUserByWalletAddress in Hget.
    now apply find_some in Hget. }
  destruct Hcase as [-> | (Hnone & Hu & Hset)]; [ now left | right ].
  split; [ | now split ].
  cbn [getUserByWalletAddress MemStorage_IStorage] in Hnone.
  unfold MemStorage.getUserByWalletAddress in Hnone.
  intros Hin. apply in_map_iff in Hin. destruct Hin as (x & Hx & Hxin).
  apply (find_none _ _ Hnone) in Hxin. unfold lowered_address in Hx.
  rewrite Hx in Hxin. now rewrite String.eqb_refl in Hxin.
Qed.

(** What finding or creating does to the users of [DatabaseStorage]. *)
Lemma db_find_or_create_users (s s' : DatabaseStorage.t) (a : string)
    (f : Fresh) (u : User.t) :
  find_or_create s a f = Normal (u, s') ->
  DatabaseStorage.trips s' = DatabaseStorage.trips s
  /\ In u (DatabaseStorage.users s')
  /\ (s' = s
      \/ (~ In (toLowerCase a)
               (map User.walletAddress (DatabaseStorage.users s))
          /\ u = User.mk (uuid f) (toLowerCase a) (now f)
          /\ DatabaseStorage.users s' = DatabaseStorage.users s ++ [u])).
Proof.
  intros Hfc.
  destruct (db_find_or_create s a f)
    as [(u0 & _ & H & Hin & _) | [(Hnone & _ & H & _) | (_ & _ & e & H)]];
    rewrite H in Hfc; [ | | discriminate ].
  - injection Hfc as <- <-. split; [ reflexivity | ].
    split; [ exact Hin | now left ].
  - injection Hfc as <- <-. split; [ reflexivity | ].
    split; [ cbn [DatabaseStorage.users]; apply in_or_app; right; now left | ].
    right. split; [ | now split ].
    cbn [getUserByWalletAddress DatabaseStorage_IStorage] in Hnone.
    apply first_filter_None in Hnone.
    intros Hin. apply in_map_iff in Hin. destruct Hin as (x & Hx & Hxin).
    assert (Hf : In x (filter
                         (fun u0 => String.eqb (User.walletAddress u0)
                                               (toLowerCase a))
                         (DatabaseStorage.users s))).
    { apply filter_In. split; [ exact Hxin | ].
      rewrite Hx. apply String.eqb_refl. }
    unfold DatabaseStorage.select_users_by_walletAddress in Hnone.
    now rewrite Hnone in Hf.
Qed.

(** The users of a store after a route, from those before it. *)
Lemma mem_route_users (P : MemStorage.t -> Prop) :
  (forall s s' a f u,
     P s -> find_or_create s a f = Normal (u, s') -> P s') ->
  (forall s s' t f row u,
     P s ->
     In u (all_users s) ->
     InsertTrip.userId t = User.id u ->
     createTrip s t f = Normal (row, s') -> P s') ->
  P MemStorage.new ->
  forall s, mem_reachable s -> P s.
Proof.
  intros Hfind Htrip Hnew s Hreach.
  induction Hreach as [| s w f _ IH | s req fu ft _ IH]; [ exact Hnew | | ].
  - unfold post_api_auth_wallet.
    destruct (truthy w) as [a |]; [ | exact IH ].
    destruct (find_or_create s a f) as [[u s1] | e] eqn:Hfc; [ | exact IH ].
    exact (Hfind _ _ _ _ _ IH Hfc).
  - unfold post_api_trips.
    destruct (truthy _) as [a |]; [ | exact IH ].
    destruct (find_or_create s a fu) as [[u s1] | e] eqn:Hfc; [ | exact IH ].
    pose proof (Hfind _ _ _ _ _ IH Hfc) as H1.
    destruct (insertTripSchema_parse _ _ _ _) as [t |] eqn:Hparse;
      [ | exact H1 ].
    destruct (createTrip s1 t ft) as [[row s2] | e] eqn:Hct; [ | exact H1 ].
    apply mem_find_or_create_users in Hfc. destruct Hfc as (_ & Hin & _).
    apply parse_userId in Hparse.
    exact (Htrip _ _ _ _ _ u H1 Hin Hparse Hct).
Qed.

Lemma db_route_users (P : DatabaseStorage.t -> Prop) :
  (forall s s' a f u,
     P s -> find_or_create s a f = Normal (u, s') -> P s') ->
  (forall s s' t f row u,
     P s ->
     In u (all_users s) ->
     InsertTrip.userId t = User.id u ->
     createTrip s t f = Normal (row, s') -> P s') ->
  P DatabaseStorage.empty ->
  forall s, db_reachable s -> P s.
Proof.
  intros Hfind Htrip Hnew s Hreach.
  induction Hreach as [| s w f _ IH | s req fu ft _ IH]; [ exact Hnew | | ].
  - unfold post_api_auth_wallet.
    destruct (truthy w) as [a |]; [ | exact IH ].
    destruct (find_or_create s a f) as [[u s1] | e] eqn:Hfc; [ | exact IH ].
    exact (Hfind _ _ _ _ _ IH Hfc).
  - unfold post_api_trips.
    destruct (truthy _) as [a |]; [ | exact IH ].
    destruct (find_or_create s a fu) as [[u s1] | e] eqn:Hfc; [ | exact IH ].
    pose proof (Hfind _ _ _ _ _ IH Hfc) as H1.
    destruct (insertTripSchema_parse _ _ _ _) as [t |] eqn:Hparse;
      [ | exact H1 ].
    destruct (createTrip s1 t ft) as [[row s2] | e] eqn:Hct; [ | exact H1 ].
    apply db_find_or_create_users in Hfc. destruct Hfc as (_ & Hin & _).
    apply parse_userId in Hparse.
    exact (Htrip _ _ _ _ _ u H1 Hin Hparse Hct).
Qed.

(** X5. In every store the routes can build no two accounts have the
    same address, letter case aside: in [MemStorage] by the lookup the
    routes make before they create, in [DatabaseStorage] also by the
    lower-cased column on which a conflict stops the insert. *)
Theorem one_account_per_address :
  forall (sm : MemStorage.t) (sd : DatabaseStorage.t),
    mem_reachable sm ->
    db_reachable sd ->
    NoDup (map lowered_address (all_users sm))
    /\ NoDup (map lowered_address (all_users sd))
    /\ NoDup (map User.walletAddress (all_users sd)).
Proof.
  intros sm sd Hm Hd. split.
  - revert sm Hm. apply mem_route_users.
    + intros s s' a f u IH Hfc. apply mem_find_or_create_users in Hfc.
      destruct Hfc as (_ & _ & [Hsame | (Hnew & Hu & Hset)]);
        cbn [all_users MemStorage_Rows] in *.
      * now rewrite Hsame.
      * rewrite Hset. apply JsMap_NoDup_set; [ exact IH | ].
        rewrite Hu. exact Hnew.
    + intros s s' t f row u IH _ _ Hct. apply mem_createTrip_users in Hct.
      cbn [all_users MemStorage_Rows] in *. now rewrite Hct.
    + constructor.
  - assert (Hnd : NoDup (map User.walletAddress (all_users sd))).
    { revert sd Hd. apply db_route_users.
      + intros s s' a f u IH Hfc. apply db_find_or_create_users in Hfc.
        destruct Hfc as (_ & _ & [-> | (Hnew & Hu & Happ)]); [ exact IH | ].
        cbn [all_users DatabaseStorage_Rows] in *.
        rewrite Happ, map_app. cbn [map].
        apply NoDup_app_remove_l with (l := []). cbn [app].
        apply Permutation_NoDup with (l := User.walletAddress u
                                            :: map User.walletAddress
                                                 (DatabaseStorage.users s)).
        { apply Permutation_cons_append. }
        constructor; [ now rewrite Hu | exact IH ].
      + intros s s' t f row u IH _ _ Hct. apply db_createTrip_users in Hct.
        cbn [all_users DatabaseStorage_Rows] in *. now rewrite Hct.
      + constructor. }
    split; [ | exact Hnd ].
    pose proof (@db_reachable_lower sd Hd) as Hlower.
    replace (map lowered_address (all_users sd))
      with (map User.walletAddress (all_users sd)); [ exact Hnd | ].
    apply map_ext_in. intros u Hin. unfold lowered_address.
    now apply Hlower.
Qed.

Lemma one_account_per_address_witness :
  let f1 := mkFresh "6f1c2f0e-user" 1700000000000 in
  let f2 := mkFresh "c41d7a90-user" 1700000000500 in
  let sm := snd (post_api_auth_wallet
                   (snd (post_api_auth_wallet MemStorage.new
                           (Some "0x742D35Cc6E4d2Bb3D4b8C85F53533f8F2f4D5B1f")
                           f1))
                   (Some mock_address) f2) in
  length (all_users sm) = 1%nat
  /\ NoDup (map lowered_address (all_users sm)).
Proof.
  intros f1 f2 sm. split; [ reflexivity | ].
  apply (@one_account_per_address sm DatabaseStorage.empty).
  - unfold sm. repeat constructor.
  - constructor.
Defined.

(** In the map of [MemStorage] a user sits under its own [id]. *)
Lemma JsMap_set_keys {V} (id : V -> string) (m : JsMap.t V) (key : string)
    (v : V) :
  Forall (fun kv => id (snd kv) = fst kv) m ->
  id v = key ->
  Forall (fun kv => id (snd kv) = fst kv) (JsMap.set m key v).
Proof.
  intros Hm Hv. induction m as [| [k x] m IH]; simpl.
  - now repeat constructor.
  - apply Forall_cons_iff in Hm. destruct Hm as [Hx Hrest].
    destruct (String.eqb_spec k key) as [Heq | Hne].
    + constructor; [ simpl; congruence | exact Hrest ].
    + constructor; [ exact Hx | now apply IH ].
Qed.

(** [set] under the [id] of the value loses no [id]. *)
Lemma JsMap_set_ids {V} (id : V -> string) (m : JsMap.t V) (v : V)
    (i : string) :
  Forall (fun kv => id (snd kv) = fst kv) m ->
  In i (map id (JsMap.values m)) ->
  In i (map id (JsMap.values (JsMap.set m (id v) v))).
Proof.
  intros Hm. induction m as [| [k x] m IH]; simpl; [ intros [] | ].
  apply Forall_cons_iff in Hm. destruct Hm as [Hx Hrest]. simpl in Hx.
  destruct (String.eqb_spec k (id v)) as [Heq | Hne]; simpl.
  - intros [<- | Hin]; [ left; congruence | now right ].
  - intros [<- | Hin]; [ now left | right; now apply IH ].
Qed.

(** X6. Every stored trip belongs to a stored account: in every store
    the routes can build, the [userId] of each trip is the [id] of a
    user. *)
Theorem every_trip_has_its_user :
  forall (sm : MemStorage.t) (sd : DatabaseStorage.t),
    mem_reachable sm ->
    db_reachable sd ->
    (forall trip, In trip (all_trips sm) ->
       exists u, In u (all_users sm) /\ User.id u = Trip.userId trip)
    /\ (forall trip, In trip (all_trips sd) ->
          exists u, In u (all_users sd) /\ User.id u = Trip.userId trip).
Proof.
  intros sm sd Hm Hd. split.
  - assert (H : Forall (fun kv => User.id (snd kv) = fst kv)
                       (MemStorage.users sm)
                /\ forall trip, In trip (all_trips sm) ->
                     In (Trip.userId trip) (map User.id (all_users sm))).
    { revert sm Hm. apply mem_route_users.
      - intros s s' a f u [Hkeys Href] Hfc.
        apply mem_find_or_create_users in Hfc.
        destruct Hfc as (Htrips & _ & [Hsame | (_ & Hu & Hset)]);
          cbn [all_users all_trips MemStorage_Rows] in *;
          rewrite Htrips.
        + now rewrite Hsame.
        + rewrite Hset.
          assert (Hid : User.id u = uuid f) by now rewrite Hu.
          split; [ now apply JsMap_set_keys | ].
          intros trip Hin. rewrite <- Hid.
          apply JsMap_set_ids; [ exact Hkeys | now apply Href ].
      - intros s s' t f row u [Hkeys Href] Hu Hid Hct.
        pose proof Hct as Husers. apply mem_createTrip_users in Husers.
        cbn [createTrip MemStorage_IStorage] in Hct.
        unfold MemStorage.createTrip in Hct. injection Hct as <- <-.
        cbn [all_users all_trips MemStorage_Rows MemStorage.users
             MemStorage.trips] in *.
        split; [ exact Hkeys | ].
        intros trip Hin. apply JsMap_In_values_set_inv in Hin.
        destruct Hin as [-> | Hin]; [ | now apply Href ].
        cbn [Trip.userId]. rewrite Hid. now apply in_map.
      - split; [ constructor | intros trip [] ]. }
    destruct H as [_ Href]. intros trip Hin.
    apply Href in Hin. apply in_map_iff in Hin.
    destruct Hin as (u & Hid & Hu). now exists u.
  - revert sd Hd.
    apply (@db_route_users
             (fun s => forall trip, In trip (all_trips s) ->
                exists u, In u (all_users s)
                          /\ User.id u = Trip.userId trip)).
    + intros s s' a f u IH Hfc. apply db_find_or_create_users in Hfc.
      destruct Hfc as (Htrips & _ & [-> | (_ & _ & Happ)]); [ exact IH | ].
      cbn [all_users all_trips DatabaseStorage_Rows] in *.
      rewrite Htrips, Happ. intros trip Hin.
      destruct (IH trip Hin) as (v & Hv & Hid).
      exists v. split; [ apply in_or_app; now left | exact Hid ].
    + intros s s' t f row u IH Hu Hid Hct.
      pose proof Hct as Husers. apply db_createTrip_users in Husers.
      cbn [createTrip DatabaseStorage_IStorage] in Hct.
      unfold DatabaseStorage.createTrip in Hct.
      destruct (filter _ (DatabaseStorage.trips s)); [ | discriminate ].
      destruct (DatabaseStorage.select_users_by_id s _); [ discriminate | ].
      injection Hct as <- <-.
      cbn [all_users all_trips DatabaseStorage_Rows DatabaseStorage.users
           DatabaseStorage.trips] in *.
      intros trip Hin. apply in_app_or in Hin.
      destruct Hin as [Hin | [<- | []]]; [ now apply IH | ].
      exists u. split; [ exact Hu | now rewrite Hid ].
    + intros trip [].
Qed.

Lemma every_trip_has_its_user_witness :
  let req := TripRequest.mk (Some "0x742D35Cc6E4d2Bb3D4b8C85F53533f8F2f4D5B1f")
                            (JString "Cycling") (JNumber 7) (JNumber 3) in
  let fu := mkFresh "6f1c2f0e-user" 1700000000000 in
  let ft := mkFresh "9a7b3c1d-trip" 1700000000001 in
  let sd := snd (post_api_trips DatabaseStorage.empty req fu ft) in
  length (all_trips sd) = 1%nat
  /\ forall trip, In trip (all_trips sd) ->
       exists u, In u (all_users sd) /\ User.id u = Trip.userId trip.
Proof.
  intros req fu ft sd. split; [ reflexivity | ].
  apply (@every_trip_has_its_user MemStorage.new sd).
  - constructor.
  - unfold sd. repeat constructor.
Defined.

(** X7. [DatabaseStorage.createUser] for an address that is stored, in
    whatever letter case it is written, gives back the stored account and
    writes nothing; for a new address it inserts the lower-cased row, and
    when the generated key is taken it throws the error of the insert.
    [MemStorage.createUser] makes no such test: under a fresh key it adds
    an account whatever is stored. *)
Theorem DatabaseStorage_createUser_gives_back_the_account :
  forall (sd : DatabaseStorage.t) (a : string) (f : Fresh)
         (existing : User.t),
    getUserByWalletAddress sd a = Some existing ->
    createUser sd (InsertUser.mk a) f = Normal (existing, sd)
    /\ (forall b f',
          toLowerCase b = toLowerCase a ->
          createUser sd (InsertUser.mk b) f' = Normal (existing, sd))
    /\ (forall s0 a0 f0,
          getUserByWalletAddress s0 a0 = None ->
          createUser s0 (InsertUser.mk a0) f0
          = match DatabaseStorage.select_users_by_id s0 (uuid f0) with
            | [] =>
                let u := User.mk (uuid f0) (toLowerCase a0) (now f0) in
                Normal (u, DatabaseStorage.mk
                             (DatabaseStorage.users s0 ++ [u])
                             (DatabaseStorage.trips s0))
            | _ :: _ =>
                Throw (mkError
                         "duplicate key value violates unique constraint")
            end)
    /\ (forall (sm : MemStorage.t),
          JsMap.get (MemStorage.users sm) (uuid f) = None ->
          createUser sm (InsertUser.mk a) f
          = Normal (User.mk (uuid f) a (now f),
                    MemStorage.mk
                      (MemStorage.users sm
                       ++ [(uuid f, User.mk (uuid f) a (now f))])
                      (MemStorage.trips sm))).
Proof.
  intros sd a f existing Hget.
  assert (Hconflict : forall b f',
            toLowerCase b = toLowerCase a ->
            createUser sd (InsertUser.mk b) f' = Normal (existing, sd)).
  { intros b f' Hb.
    cbn [getUserByWalletAddress createUser DatabaseStorage_IStorage] in *.
    rewrite <- (@db_lookup_case_variant sd a b Hb) in Hget.
    unfold DatabaseStorage.createUser,
      DatabaseStorage.insert_user_onConflictDoNothing.
    cbn [InsertUser.walletAddress].
    pose proof Hget as Hrows.
    unfold DatabaseStorage.getUserByWalletAddress in Hrows.
    destruct (DatabaseStorage.select_users_by_walletAddress sd
                (toLowerCase b)) as [| row rows]; [ discriminate | ].
    cbn [bind fst snd DatabaseStorage.first hd_error].
    now rewrite Hget. }
  split; [ now apply Hconflict | ]. split; [ exact Hconflict | ].
  split.
  - intros s0 a0 f0 Hnone.
    cbn [getUserByWalletAddress createUser DatabaseStorage_IStorage] in *.
    unfold DatabaseStorage.createUser,
      DatabaseStorage.insert_user_onConflictDoNothing.
    cbn [InsertUser.walletAddress].
    pose proof Hnone as Hrows.
    unfold DatabaseStorage.getUserByWalletAddress in Hrows.
    apply first_filter_None in Hrows.
    fold (DatabaseStorage.select_users_by_walletAddress s0 (toLowerCase a0))
      in Hrows.
    rewrite Hrows.
    destruct (DatabaseStorage.select_users_by_id s0 (uuid f0)).
    + reflexivity.
    + cbn [bind]. now rewrite Hnone.
  - intros sm Hfresh. cbn [createUser MemStorage_IStorage].
    unfold MemStorage.createUser. cbn [InsertUser.walletAddress].
    now rewrite JsMap_set_fresh by exact Hfresh.
Qed.

Lemma DatabaseStorage_createUser_gives_back_the_account_witness :
  let f := mkFresh "6f1c2f0e-user" 1700000000000 in
  let f' := mkFresh "c41d7a90-user" 1700000000500 in
  let sd := snd (post_api_auth_wallet DatabaseStorage.empty
                   (Some "0x742D35Cc6E4d2Bb3D4b8C85F53533f8F2f4D5B1f") f) in
  let existing := User.mk "6f1c2f0e-user" mock_address 1700000000000 in
  getUserByWalletAddress sd mock_address = Some existing
  /\ createUser sd (InsertUser.mk "0X742D35CC6E4D2BB3D4B8C85F53533F8F2F4D5B1F")
                f'
     = Normal (existing, sd).
Proof.
  intros f f' sd existing. split; [ reflexivity | ].
  apply (proj1 (proj2 (@DatabaseStorage_createUser_gives_back_the_account
                         sd mock_address f' existing eq_refl))).
  reflexivity.
Defined.

(* ================================================================== *)
(** * When the component asks for a mint *)
(* ================================================================== *)

Lemma gt_zero_whole (z : Z) : gt (Num (inject_Z z)) (Num 0) = true -> 0 < z.
Proof.
  simpl. intros H. apply negb_true_iff in H.
  destruct (Z_lt_le_dec 0 z) as [Hlt | Hle]; [ exact Hlt | ].
  assert (Hq : Qle_bool (inject_Z z) 0 = true).
  { apply Qle_bool_iff. change 0%Q with (inject_Z 0).
    rewrite <- Zle_Qle. exact Hle. }
  congruence.
Qed.

Lemma setMinting_false_id (st : State) :
  minting st = false -> setMinting false st = st.
Proof. destruct st; simpl. now intros ->. Qed.

(** X8. The component asks the ledger for a mint at one place only: at a
    click on submit with nothing in flight, an account, a provider and a
    distance above zero. The amount is what the dialog showed as preview,
    [calculateTokens] of the form, a whole number above zero; the mint goes
    to the connected account, and it is the only mint of that turn. *)
Theorem mint_only_for_the_previewed_tokens :
  forall (w : World) (e : Event) (a : string) (n : number),
    In (a, n) (mints (snd (step w e))) ->
    e = Click_submit
    /\ minting (ui w) = false
    /\ truthy (account (ui w)) = Some a
    /\ provider (ui w) <> None
    /\ tokens_preview (ui w) = Some (Normal n)
    /\ (exists z, n = Num (inject_Z z) /\ 0 < z)
    /\ (exists d,
          TripForm.distance (tripForm (ui w)) = Some d
          /\ le d (Num 0) = false
          /\ pending (fst (step w e))
             = pending w
               ++ [AwaitMint (TripData.mk a (TripForm.mode (tripForm (ui w)))
                                          d n)])
    /\ mints (snd (step w e)) = [(a, n)].
Proof.
  intros [st pend] e a n. destruct e; cbn [step ui pending].
  - intros [].
  - destruct outcome; intros [].
  - intros [].
  - intros [].
  - unfold tokens_preview, submitTrip.
    destruct (minting st) eqn:Hm; [ intros [] | ].
    destruct (TripForm.distance (tripForm st)) as [d |] eqn:Hd;
      [ | intros [] ].
    destruct (le d (Num 0)) eqn:Hle; [ intros [] | ].
    destruct (calculateTokens _ d) as [tokens | err] eqn:Hcalc;
      [ | intros [] ].
    destruct (truthy (account st)) as [acc |] eqn:Hacc; [ | intros [] ].
    destruct (provider st) as [p |] eqn:Hp; [ | intros [] ].
    destruct (gt tokens (Num 0)) eqn:Hgt; [ | intros [] ].
    cbn. intros [[= <- <-] | []].
    split; [ reflexivity | ]. split; [ reflexivity | ].
    split; [ reflexivity | ]. split; [ discriminate | ].
    split; [ reflexivity | ].
    split.
    { destruct (calculateTokens_whole Hcalc Hgt) as [z Hz].
      exists z. split; [ exact Hz | ]. rewrite Hz in Hgt.
      now apply gt_zero_whole. }
    split; [ | reflexivity ].
    exists d. split; [ reflexivity | ]. split; [ exact Hle | reflexivity ].
  - destruct (nth_error pend i) as [[t | t r] |]; try (intros []).
    destruct outcome; intros [].
  - destruct (nth_error pend i) as [[t | t r] |]; try (intros []).
    unfold submitTrip_balanced.
    destruct outcome as [wei |]; destruct (txHash r); cbn;
      intros [].
  - unfold redeemReward. destruct (redeeming st); [ intros [] | ].
    cbn [snd]. destruct (_ <? _); intros [].
  - intros [].
  - intros [].
Qed.

Lemma mint_only_for_the_previewed_tokens_witness :
  let w := world_with_form 125 "Cycling" 7 in
  In (mock_address, Num 3) (mints (snd (step w Click_submit)))
  /\ tokens_preview (ui w) = Some (Normal (Num 3)).
Proof.
  intros w.
  assert (Hin : In (mock_address, Num 3) (mints (snd (step w Click_submit))))
    by (now left).
  split; [ exact Hin | ].
  destruct (@mint_only_for_the_previewed_tokens w Click_submit mock_address
              (Num 3) Hin) as (_ & _ & _ & _ & Hpreview & _).
  exact Hpreview.
Defined.



(* ================================================================== *)
(** * Redemptions in a row *)
(* ================================================================== *)





(* ================================================================== *)
(** * Connecting the wallet *)
(* ================================================================== *)

Lemma switch_to_Sepolia_iff (ans : WalletAnswers) :
  switch_to_Sepolia ans = true
  <-> (wallet_switchEthereumChain ans = Switch_failed (Some 4902) ->
       wallet_addEthereumChain ans = true).
Proof.
  unfold switch_to_Sepolia.
  destruct (wallet_switchEthereumChain ans) as [| [code |]].
  - split; [ discriminate | reflexivity ].
  - destruct (Z.eqb_spec code 4902) as [-> | Hne].
    + split; [ auto | intros H; now apply H ].
    + split; [ intros _ [= H]; contradiction | reflexivity ].
  - split; [ discriminate | reflexivity ].
Qed.

(** X11. [connectWallet] connects, that is it stores the account and the
    provider and shows "Wallet connected successfully!", exactly when the
    wallet is there, [ethers] loads, the accounts are granted, the signer
    gives an address, and the switch of the chain did not fail with code
    4902 followed by a failed adding of the chain: any other failure of
    the switch is dropped. The balance is then what [balanceOf] answered,
    or kept when that failed. On every other path the account, the
    provider and the balance are kept and one toast says why; and
    [loading] is off at the end whenever the wallet is there. *)
Theorem connectWallet_connects_exactly_when :
  forall (ans : WalletAnswers) (st : State),
    let r := connectWallet ans st in
    let granted :=
      ethereum ans = true
      /\ import_ethers ans = true
      /\ eth_requestAccounts ans = true
      /\ (wallet_switchEthereumChain ans = Switch_failed (Some 4902) ->
          wallet_addEthereumChain ans = true) in
    (forall a,
       granted ->
       signer_address ans = Some a ->
       account (fst r) = Some a
       /\ provider (fst r) = Some BrowserProvider
       /\ balance (fst r)
          = match balanceOf ans with
            | Balance_read wei => whole_tokens wei
            | Balance_failed => balance st
            end
       /\ snd r
          = map Component (snd (fetchBalance (balanceOf ans) st))
            ++ [Wallet_toast Toast_WalletConnected]
       /\ fst r
          = setLoading false
              (ui (run (mkWorld (setLoading true st) [])
                       [Wallet_connected a;
                        Balance_fetched (balanceOf ans)])))
    /\ (~ (granted /\ signer_address ans <> None) ->
        account (fst r) = account st
        /\ provider (fst r) = provider st
        /\ balance (fst r) = balance st
        /\ snd r
           = [Wallet_toast (if ethereum ans then Toast_FailedToConnect
                            else Toast_MetaMaskNotFound)])
    /\ (ethereum ans = true -> loading (fst r) = false)
    /\ (ethereum ans = false -> fst r = st).
Proof.
  intros ans st r granted. subst r granted.
  pose proof (switch_to_Sepolia_iff ans) as Hswitch.
  unfold connectWallet.
  split; [ | split; [ | split ] ].
  - intros a (He & Hi & Hr & Hs) Ha. apply Hswitch in Hs.
    rewrite He, Hi, Hr, Hs, Ha.
    destruct (balanceOf ans); cbn; repeat split; reflexivity.
  - intros Hnot.
    destruct (ethereum ans) eqn:He; [ | now repeat split ].
    destruct (import_ethers ans) eqn:Hi; [ | now repeat split ].
    destruct (eth_requestAccounts ans) eqn:Hr; [ | now repeat split ].
    destruct (switch_to_Sepolia ans) eqn:Hs; [ | now repeat split ].
    destruct (signer_address ans) as [a |] eqn:Ha; [ | now repeat split ].
    elim Hnot. split; [ | discriminate ].
    repeat split. now apply Hswitch.
  - intros He. rewrite He.
    destruct (import_ethers ans); [ | reflexivity ].
    destruct (eth_requestAccounts ans); [ | reflexivity ].
    destruct (switch_to_Sepolia ans); [ | reflexivity ].
    destruct (signer_address ans); [ | reflexivity ].
    destruct (balanceOf ans); reflexivity.
  - intros He. now rewrite He.
Qed.

Lemma connectWallet_connects_exactly_when_witness :
  let ans := mkWalletAnswers true true true (Switch_failed (Some 4001)) false
               (Some "0x742D35Cc6E4d2Bb3D4b8C85F53533f8F2f4D5B1f")
               Balance_failed in
  let r := connectWallet ans initial_State in
  account (fst r) = Some "0x742D35Cc6E4d2Bb3D4b8C85F53533f8F2f4D5B1f"
  /\ provider (fst r) = Some BrowserProvider
  /\ balance (fst r) = 0
  /\ snd r = [Component (Display Toast_BalanceUpdateFailed);
              Wallet_toast Toast_WalletConnected].
Proof.
  intros ans r.
  destruct (proj1 (@connectWallet_connects_exactly_when ans initial_State)
                  "0x742D35Cc6E4d2Bb3D4b8C85F53533f8F2f4D5B1f")
    as (Ha & Hp & Hb & Hout & _).
  - repeat split. discriminate.
  - reflexivity.
  - repeat split; assumption.
Defined.

(* ================================================================== *)
(** * After a confirmed mint *)
(* ================================================================== *)

(** X12. When the mint is confirmed the trip is posted in every case, and
    [minting] is cleared. With a transaction hash in the receipt the toast
    names the tokens and the first ten characters of the hash, the dialog
    is closed and the form reset. With a receipt that carries no
    [transactionHash] the success toast cannot be built: the flow ends in
    "Trip submission failed" although the tokens are minted and the trip
    is posted, and the dialog and the form stay as they were. A failed
    balance read adds its own toast before either. *)
Theorem after_a_confirmed_mint :
  forall (w : World) (acc mode : string) (d : Q) (tokens : number)
         (h : option string) (read : BalanceOutcome),
    reachable w ->
    pending w = [] ->
    truthy (account (ui w)) = Some acc ->
    tripForm (ui w) = TripForm.mk mode (Some (Num d)) ->
    (0 < d)%Q ->
    calculateTokens mode (Num d) = Normal tokens ->
    gt tokens (Num 0) = true ->
    let r := submission (ui w) (Mint_confirmed h) read in
    let read_toast :=
      match read with
      | Balance_read _ => []
      | Balance_failed => [Toast_BalanceUpdateFailed]
      end in
    posted (snd r) = [TripData.mk acc mode (Num d) tokens]
    /\ minting (fst r) = false
    /\ account (fst r) = account (ui w)
    /\ match h with
       | Some hash =>
           toasts (snd r)
           = read_toast ++ [Toast_TokensMinted tokens (slice_0_10 hash)]
           /\ showTripModal (fst r) = false
           /\ tripForm (fst r) = initial_tripForm
       | None =>
           toasts (snd r)
           = read_toast
             ++ [Toast_TripSubmissionFailed
                   "There was an error logging your trip. Please try again."]
           /\ showTripModal (fst r) = showTripModal (ui w)
           /\ tripForm (fst r) = tripForm (ui w)
       end.
Proof.
  intros w acc mode d tokens h read Hreach Hidle Hacc Hform Hd Hcalc Hgt.
  destruct (idle_world Hreach Hidle Hacc) as [Hm Hprov].
  generalize dependent (ui w). intros st Hacc Hform Hm Hprov.
  cbv zeta. unfold submission.
  rewrite (submitTrip_starts_mint st Hm Hacc Hprov Hform Hd Hcalc Hgt).
  unfold submitTrip_minted, mintTokens, submitTrip_balanced.
  destruct read as [wei |]; destruct h as [hash |]; cbn;
    repeat split; reflexivity.
Qed.

Lemma after_a_confirmed_mint_witness :
  let w := world_with_form 125 "Walking" 10 in
  let r := submission (ui w) (Mint_confirmed None) (Balance_read 0) in
  reachable w
  /\ posted (snd r) = [TripData.mk mock_address "Walking" (Num 10) (Num 10)]
  /\ minting (fst r) = false.
Proof.
  intros w r.
  assert (Hreach : reachable w)
    by (unfold w, world_with_form, world_connected; repeat constructor).
  split; [ exact Hreach | ].
  destruct (@after_a_confirmed_mint w mock_address "Walking" 10 (Num 10)
              None (Balance_read 0)
              Hreach eq_refl eq_refl eq_refl eq_refl eq_refl eq_refl)
    as (Hposted & Hminting & _).
  split; [ exact Hposted | exact Hminting ].
Defined.

(* ================================================================== *)
(** * More on the reward policy *)
(* ================================================================== *)






(* ================================================================== *)
(** * What is in flight is fixed at the click *)
(* ================================================================== *)

Lemma reachable_run (events : list Event) (w : World) :
  reachable w -> reachable (run w events).
Proof.
  revert w. induction events as [| e events IH]; intros w Hreach;
    [ exact Hreach | ].
  cbn [run fold_left]. apply IH. now constructor.
Qed.

(** A turn that is no answer of the ledger leaves the suspended call as
    it is. *)
Lemma quiet_step (w : World) (p : Pending) (e : Event) :
  reachable w ->
  pending w = [p] ->
  quiet e ->
  pending (fst (step w e)) = [p].
Proof.
  intros Hreach Hp Hq.
  pose proof (reachable_invariant Hreach) as (Hred & _ & _ & Hmint & _).
  destruct w as [st pend]. cbn [ui pending] in *. subst pend.
  destruct Hmint as [[_ H] | [Hm _]]; [ discriminate H | ].
  destruct e; cbn [step ui pending quiet] in *; try reflexivity;
    try contradiction.
  - destruct (fetchBalance outcome st). reflexivity.
  - unfold submitTrip. rewrite Hm. reflexivity.
  - destruct (redeemReward st reward code st). reflexivity.
Qed.

Lemma quiet_run (events : list Event) (w : World) (p : Pending) :
  reachable w ->
  pending w = [p] ->
  Forall quiet events ->
  pending (run w events) = [p].
Proof.
  revert w. induction events as [| e events IH]; intros w Hreach Hp Hall;
    [ exact Hp | ].
  apply Forall_cons_iff in Hall. destruct Hall as [Hq Hall].
  cbn [run fold_left]. apply IH; [ now constructor | | exact Hall ].
  now apply quiet_step.
Qed.

(** X14. The trip of a submission is fixed at the click. Whatever
    happens while the call is suspended, before and after the mint is
    confirmed (the form edited, the wallet connected anew, rewards
    redeemed, submit clicked again), the call stays the only one in
    flight, and when the balance read settles exactly the trip of the
    click is posted; and when the mint fails nothing is posted. *)
Theorem trip_in_flight_is_fixed_at_the_click :
  forall (w : World) (trip : TripData.t) (before after : list Event)
         (h : option string) (read : BalanceOutcome),
    reachable w ->
    pending w = [AwaitMint trip] ->
    Forall quiet before ->
    Forall quiet after ->
    let w1 := run w before in
    let w2 := fst (step w1 (Mint_settled 0 (Mint_confirmed h))) in
    let w3 := run w2 after in
    pending w1 = [AwaitMint trip]
    /\ pending w3 = [AwaitBalance trip (mkMintResult true h)]
    /\ posted (snd (step w3 (Balance_settled 0 read))) = [trip]
    /\ pending (fst (step w3 (Balance_settled 0 read))) = []
    /\ (forall cause,
          let failed := step w1 (Mint_settled 0 (Mint_failed cause)) in
          pending (fst failed) = []
          /\ posted (snd failed) = []
          /\ minting (ui (fst failed)) = false).
Proof.
  intros w trip before after h read Hreach Hp Hb Ha w1 w2 w3.
  assert (Hp1 : pending w1 = [AwaitMint trip])
    by (apply quiet_run; assumption).
  assert (Hreach1 : reachable w1) by (apply reachable_run; exact Hreach).
  assert (Hp2 : pending w2 = [AwaitBalance trip (mkMintResult true h)]).
  { subst w2. destruct w1 as [st1 pend1]. cbn [pending] in Hp1.
    subst pend1. reflexivity. }
  assert (Hreach2 : reachable w2) by (subst w2; now constructor).
  assert (Hp3 : pending w3 = [AwaitBalance trip (mkMintResult true h)])
    by (apply quiet_run; assumption).
  split; [ exact Hp1 | ]. split; [ exact Hp3 | ].
  split; [ | split ].
  - destruct w3 as [st3 pend3]. cbn [pending] in Hp3. subst pend3.
    cbn [step ui pending nth_error]. unfold submitTrip_balanced.
    destruct read; destruct h; reflexivity.
  - destruct w3 as [st3 pend3]. cbn [pending] in Hp3. subst pend3.
    cbn [step ui pending nth_error].
    destruct (submitTrip_balanced _ _ read st3). reflexivity.
  - intros cause failed. subst failed.
    destruct w1 as [st1 pend1]. cbn [pending] in Hp1. subst pend1.
    repeat split.
Qed.

Lemma trip_in_flight_is_fixed_at_the_click_witness :
  let w := fst (step (world_with_form 125 "Walking" 10) Click_submit) in
  let trip := TripData.mk mock_address "Walking" (Num 10) (Num 10) in
  let before := [Form_changed (TripForm.mk "Cycling" (Some (Num 40)));
                 Click_submit;
                 Wallet_connected "0x00000000000000000000000000000000deadbeef"] in
  let w3 := run (fst (step (run w before)
                           (Mint_settled 0 (Mint_confirmed (Some "0x9f3c61d2a7")))))
                [Click_submit] in
  reachable w
  /\ posted (snd (step w3 (Balance_settled 0 (Balance_read 0)))) = [trip].
Proof.
  intros w trip before w3.
  assert (Hreach : reachable w)
    by (unfold w, world_with_form, world_connected; repeat constructor).
  split; [ exact Hreach | ].
  apply (@trip_in_flight_is_fixed_at_the_click w trip before [Click_submit]
           (Some "0x9f3c61d2a7") (Balance_read 0) Hreach eq_refl).
  - repeat constructor.
  - repeat constructor.
Defined.
